(** * Solar system scene: the per-frame stepper, the builder and the camera focus

    A shallow embedding of [script.js] (the basic variant) and of its richer
    sibling (labels, click-to-focus, the decorative entity "Theo"), together
    with the part of the three.js object model these scripts drive:
    [Vector3], [Euler], [Quaternion], [Matrix4] and [Object3D].

    Numbers.  In the scene model a JavaScript number is a real number or
    [NaN] (the value every arithmetic operation yields on [undefined]);
    rounding of IEEE doubles and the two infinities are not modelled
    there, so a quotient by zero is [NaN].  The two angle accumulators of
    the stepper, where rounding adds up frame after frame, are modelled a
    second time on binary64 numbers, in [Binary64]. *)

From Stdlib Require Import PrimFloat FloatOps SpecFloat.
From Stdlib Require Import ZArith QArith Qreals.
From Stdlib Require Import NArith Factorial Reals Lra Lia RNsatz.
From Stdlib Require Import Bool String List.
Import ListNotations.

Open Scope R_scope.

(** ** JavaScript numbers *)

Inductive number : Type :=
| Fin (r : R)
| NaN.

Declare Scope js_scope.
Delimit Scope js_scope with js.
Bind Scope js_scope with number.

Definition jadd (a b : number) : number :=
  match a, b with Fin x, Fin y => Fin (x + y) | _, _ => NaN end.

Definition jsub (a b : number) : number :=
  match a, b with Fin x, Fin y => Fin (x - y) | _, _ => NaN end.

Definition jmul (a b : number) : number :=
  match a, b with Fin x, Fin y => Fin (x * y) | _, _ => NaN end.

Definition jdiv (a b : number) : number :=
  match a, b with
  | Fin x, Fin y => if Req_dec_T y 0 then NaN else Fin (x / y)
  | _, _ => NaN
  end.

Definition jneg (a : number) : number :=
  match a with Fin x => Fin (- x) | NaN => NaN end.

Notation "a + b" := (jadd a b) : js_scope.
Notation "a - b" := (jsub a b) : js_scope.
Notation "a * b" := (jmul a b) : js_scope.
Notation "a / b" := (jdiv a b) : js_scope.
Notation "- a" := (jneg a) : js_scope.

(** [a === b], [a > b] and [a < b] on numbers: false as soon as one side is
    [NaN]. *)
Definition jeq (a b : number) : bool :=
  match a, b with
  | Fin x, Fin y => if Req_dec_T x y then true else false
  | _, _ => false
  end.

Definition jlt (a b : number) : bool :=
  match a, b with
  | Fin x, Fin y => if Rlt_dec x y then true else false
  | _, _ => false
  end.

Definition jgt (a b : number) : bool := jlt b a.

(** Truthiness of a number: [0] and [NaN] are falsy. *)
Definition truthy (a : number) : bool :=
  match a with
  | Fin x => if Req_dec_T x 0 then false else true
  | NaN => false
  end.

(** A property that may be missing from an object literal: [None] is
    [undefined].  [undefined] is falsy and becomes [NaN] in arithmetic. *)
Definition toNumber (v : option R) : number :=
  match v with Some r => Fin r | None => NaN end.

Definition truthy_prop (v : option R) : bool :=
  match v with Some r => truthy (Fin r) | None => false end.

(** [a || b] on numbers. *)
Definition jor (a b : number) : number := if truthy a then a else b.

Module Math.

Definition PI : number := Fin Rtrigo1.PI.

Definition cos (a : number) : number :=
  match a with Fin x => Fin (Rtrigo_def.cos x) | NaN => NaN end.

Definition sin (a : number) : number :=
  match a with Fin x => Fin (Rtrigo_def.sin x) | NaN => NaN end.

Definition sqrt (a : number) : number :=
  match a with
  | Fin x => if Rlt_dec x 0 then NaN else Fin (R_sqrt.sqrt x)
  | NaN => NaN
  end.

Definition abs (a : number) : number :=
  match a with Fin x => Fin (Rabs x) | NaN => NaN end.

Definition min (a b : number) : number :=
  match a, b with Fin x, Fin y => Fin (Rmin x y) | _, _ => NaN end.

Definition max (a b : number) : number :=
  match a, b with Fin x, Fin y => Fin (Rmax x y) | _, _ => NaN end.

Definition asin (a : number) : number :=
  match a with
  | Fin x =>
      if Rlt_dec x (-1) then NaN
      else if Rlt_dec 1 x then NaN
      else Fin (Ratan.asin x)
  | NaN => NaN
  end.

(** [Math.atan2(y, x)], the angle of the point [(x, y)] in (-PI, PI]. *)
Definition atan2 (y x : number) : number :=
  match y, x with
  | Fin b, Fin a =>
      if Rlt_dec 0 a then Fin (atan (b / a))
      else if Rlt_dec a 0 then
        if Rlt_dec b 0 then Fin (atan (b / a) - Rtrigo1.PI)
        else Fin (atan (b / a) + Rtrigo1.PI)
      else if Rlt_dec 0 b then Fin (Rtrigo1.PI / 2)
      else if Rlt_dec b 0 then Fin (- (Rtrigo1.PI / 2))
      else Fin 0
  | _, _ => NaN
  end.

End Math.

(** ** three.js: vectors, Euler angles, quaternions, 4x4 matrices *)

Module Vector3.

Record t : Type := mk { x : number; y : number; z : number }.

(** [new THREE.Vector3()] *)
Definition new : t := mk (Fin 0) (Fin 0) (Fin 0).

Definition subVectors (a b : t) : t :=
  mk (x a - x b)%js (y a - y b)%js (z a - z b)%js.

Definition crossVectors (a b : t) : t :=
  mk (y a * z b - z a * y b)%js
     (z a * x b - x a * z b)%js
     (x a * y b - y a * x b)%js.

Definition lengthSq (v : t) : number :=
  (x v * x v + y v * y v + z v * z v)%js.

Definition length (v : t) : number := Math.sqrt (lengthSq v).

Definition multiplyScalar (v : t) (s : number) : t :=
  mk (x v * s)%js (y v * s)%js (z v * s)%js.

Definition divideScalar (v : t) (s : number) : t :=
  multiplyScalar v (Fin 1 / s)%js.

Definition normalize (v : t) : t :=
  divideScalar v (jor (length v) (Fin 1)).

End Vector3.

Module Euler.

(** Rotation order is the default, 'XYZ', throughout. *)
Record t : Type := mk { x : number; y : number; z : number }.

Definition new : t := mk (Fin 0) (Fin 0) (Fin 0).

End Euler.

Module Quaternion.

Record t : Type := mk { x : number; y : number; z : number; w : number }.

Definition new : t := mk (Fin 0) (Fin 0) (Fin 0) (Fin 1).

(** [setFromEuler], case 'XYZ'. *)
Definition setFromEuler (e : Euler.t) : t :=
  let c1 := Math.cos (Euler.x e / Fin 2)%js in
  let c2 := Math.cos (Euler.y e / Fin 2)%js in
  let c3 := Math.cos (Euler.z e / Fin 2)%js in
  let s1 := Math.sin (Euler.x e / Fin 2)%js in
  let s2 := Math.sin (Euler.y e / Fin 2)%js in
  let s3 := Math.sin (Euler.z e / Fin 2)%js in
  mk (s1 * c2 * c3 + c1 * s2 * s3)%js
     (c1 * s2 * c3 - s1 * c2 * s3)%js
     (c1 * c2 * s3 + s1 * s2 * c3)%js
     (c1 * c2 * c3 - s1 * s2 * s3)%js.

(** [invert]: the conjugate (the quaternion is assumed of unit length). *)
Definition invert (q : t) : t :=
  mk (x q * Fin (-1))%js (y q * Fin (-1))%js (z q * Fin (-1))%js (w q).

Definition multiplyQuaternions (a b : t) : t :=
  mk (x a * w b + w a * x b + y a * z b - z a * y b)%js
     (y a * w b + w a * y b + z a * x b - x a * z b)%js
     (z a * w b + w a * z b + x a * y b - y a * x b)%js
     (w a * w b - x a * x b - y a * y b - z a * z b)%js.

(** [this.premultiply(q)] is [q * this]. *)
Definition premultiply (this q : t) : t := multiplyQuaternions q this.

End Quaternion.

Module Matrix4.

(** [elements], column-major as in three.js: [te0 te1 te2 te3] is the
    first column, [te12 te13 te14] the translation. *)
Record t : Type := mk {
  te0 : number; te1 : number; te2 : number; te3 : number;
  te4 : number; te5 : number; te6 : number; te7 : number;
  te8 : number; te9 : number; te10 : number; te11 : number;
  te12 : number; te13 : number; te14 : number; te15 : number }.

Definition identity : t :=
  mk (Fin 1) (Fin 0) (Fin 0) (Fin 0)
     (Fin 0) (Fin 1) (Fin 0) (Fin 0)
     (Fin 0) (Fin 0) (Fin 1) (Fin 0)
     (Fin 0) (Fin 0) (Fin 0) (Fin 1).

Definition compose (position : Vector3.t) (quaternion : Quaternion.t)
    (scale : Vector3.t) : t :=
  let x := Quaternion.x quaternion in
  let y := Quaternion.y quaternion in
  let z := Quaternion.z quaternion in
  let w := Quaternion.w quaternion in
  let x2 := (x + x)%js in
  let y2 := (y + y)%js in
  let z2 := (z + z)%js in
  let xx := (x * x2)%js in
  let xy := (x * y2)%js in
  let xz := (x * z2)%js in
  let yy := (y * y2)%js in
  let yz := (y * z2)%js in
  let zz := (z * z2)%js in
  let wx := (w * x2)%js in
  let wy := (w * y2)%js in
  let wz := (w * z2)%js in
  let sx := Vector3.x scale in
  let sy := Vector3.y scale in
  let sz := Vector3.z scale in
  mk ((Fin 1 - (yy + zz)) * sx)%js ((xy + wz) * sx)%js
     ((xz - wy) * sx)%js (Fin 0)
     ((xy - wz) * sy)%js ((Fin 1 - (xx + zz)) * sy)%js
     ((yz + wx) * sy)%js (Fin 0)
     ((xz + wy) * sz)%js ((yz - wx) * sz)%js
     ((Fin 1 - (xx + yy)) * sz)%js (Fin 0)
     (Vector3.x position) (Vector3.y position) (Vector3.z position)
     (Fin 1).

Definition makeRotationFromQuaternion (q : Quaternion.t) : t :=
  compose Vector3.new q (Vector3.mk (Fin 1) (Fin 1) (Fin 1)).

Definition multiplyMatrices (a b : t) : t :=
  let a11 := te0 a in let a12 := te4 a in
  let a13 := te8 a in let a14 := te12 a in
  let a21 := te1 a in let a22 := te5 a in
  let a23 := te9 a in let a24 := te13 a in
  let a31 := te2 a in let a32 := te6 a in
  let a33 := te10 a in let a34 := te14 a in
  let a41 := te3 a in let a42 := te7 a in
  let a43 := te11 a in let a44 := te15 a in
  let b11 := te0 b in let b12 := te4 b in
  let b13 := te8 b in let b14 := te12 b in
  let b21 := te1 b in let b22 := te5 b in
  let b23 := te9 b in let b24 := te13 b in
  let b31 := te2 b in let b32 := te6 b in
  let b33 := te10 b in let b34 := te14 b in
  let b41 := te3 b in let b42 := te7 b in
  let b43 := te11 b in let b44 := te15 b in
  mk (a11 * b11 + a12 * b21 + a13 * b31 + a14 * b41)%js
     (a21 * b11 + a22 * b21 + a23 * b31 + a24 * b41)%js
     (a31 * b11 + a32 * b21 + a33 * b31 + a34 * b41)%js
     (a41 * b11 + a42 * b21 + a43 * b31 + a44 * b41)%js
     (a11 * b12 + a12 * b22 + a13 * b32 + a14 * b42)%js
     (a21 * b12 + a22 * b22 + a23 * b32 + a24 * b42)%js
     (a31 * b12 + a32 * b22 + a33 * b32 + a34 * b42)%js
     (a41 * b12 + a42 * b22 + a43 * b32 + a44 * b42)%js
     (a11 * b13 + a12 * b23 + a13 * b33 + a14 * b43)%js
     (a21 * b13 + a22 * b23 + a23 * b33 + a24 * b43)%js
     (a31 * b13 + a32 * b23 + a33 * b33 + a34 * b43)%js
     (a41 * b13 + a42 * b23 + a43 * b33 + a44 * b43)%js
     (a11 * b14 + a12 * b24 + a13 * b34 + a14 * b44)%js
     (a21 * b14 + a22 * b24 + a23 * b34 + a24 * b44)%js
     (a31 * b14 + a32 * b24 + a33 * b34 + a34 * b44)%js
     (a41 * b14 + a42 * b24 + a43 * b34 + a44 * b44)%js.

(** [Vector3.setFromMatrixPosition] and [setFromMatrixColumn]. *)
Definition position (m : t) : Vector3.t :=
  Vector3.mk (te12 m) (te13 m) (te14 m).

Definition column (m : t) (index : nat) : Vector3.t :=
  match index with
  | O => Vector3.mk (te0 m) (te1 m) (te2 m)
  | 1%nat => Vector3.mk (te4 m) (te5 m) (te6 m)
  | 2%nat => Vector3.mk (te8 m) (te9 m) (te10 m)
  | _ => Vector3.mk (te12 m) (te13 m) (te14 m)
  end.

(** [this.lookAt(eye, target, up)]: only the upper 3x3 block of [this]
    is written. *)
Definition lookAt (this : t) (eye target up : Vector3.t) : t :=
  let _z := Vector3.subVectors eye target in
  let _z :=
    if jeq (Vector3.lengthSq _z) (Fin 0)
    then Vector3.mk (Vector3.x _z) (Vector3.y _z) (Fin 1)
    else _z in
  let _z := Vector3.normalize _z in
  let _x := Vector3.crossVectors up _z in
  let '(_z, _x) :=
    if jeq (Vector3.lengthSq _x) (Fin 0) then
      let _z :=
        if jeq (Math.abs (Vector3.z up)) (Fin 1)
        then Vector3.mk (Vector3.x _z + Fin 0.0001)%js
                        (Vector3.y _z) (Vector3.z _z)
        else Vector3.mk (Vector3.x _z) (Vector3.y _z)
                        (Vector3.z _z + Fin 0.0001)%js in
      let _z := Vector3.normalize _z in
      (_z, Vector3.crossVectors up _z)
    else (_z, _x) in
  let _x := Vector3.normalize _x in
  let _y := Vector3.crossVectors _z _x in
  mk (Vector3.x _x) (Vector3.y _x) (Vector3.z _x) (te3 this)
     (Vector3.x _y) (Vector3.y _y) (Vector3.z _y) (te7 this)
     (Vector3.x _z) (Vector3.y _z) (Vector3.z _z) (te11 this)
     (te12 this) (te13 this) (te14 this) (te15 this).

Definition extractRotation (m : t) : t :=
  let scaleX := (Fin 1 / Vector3.length (column m 0))%js in
  let scaleY := (Fin 1 / Vector3.length (column m 1))%js in
  let scaleZ := (Fin 1 / Vector3.length (column m 2))%js in
  mk (te0 m * scaleX)%js (te1 m * scaleX)%js (te2 m * scaleX)%js (Fin 0)
     (te4 m * scaleY)%js (te5 m * scaleY)%js (te6 m * scaleY)%js (Fin 0)
     (te8 m * scaleZ)%js (te9 m * scaleZ)%js (te10 m * scaleZ)%js (Fin 0)
     (Fin 0) (Fin 0) (Fin 0) (Fin 1).

End Matrix4.

(** [Quaternion.setFromRotationMatrix] *)
Definition Quaternion_setFromRotationMatrix (m : Matrix4.t) : Quaternion.t :=
  let m11 := Matrix4.te0 m in
  let m12 := Matrix4.te4 m in
  let m13 := Matrix4.te8 m in
  let m21 := Matrix4.te1 m in
  let m22 := Matrix4.te5 m in
  let m23 := Matrix4.te9 m in
  let m31 := Matrix4.te2 m in
  let m32 := Matrix4.te6 m in
  let m33 := Matrix4.te10 m in
  let trace := (m11 + m22 + m33)%js in
  if jgt trace (Fin 0) then
    let s := (Fin 0.5 / Math.sqrt (trace + Fin 1))%js in
    Quaternion.mk ((m32 - m23) * s)%js ((m13 - m31) * s)%js
                  ((m21 - m12) * s)%js (Fin 0.25 / s)%js
  else if jgt m11 m22 && jgt m11 m33 then
    let s := (Fin 2 * Math.sqrt (Fin 1 + m11 - m22 - m33))%js in
    Quaternion.mk (Fin 0.25 * s)%js ((m12 + m21) / s)%js
                  ((m13 + m31) / s)%js ((m32 - m23) / s)%js
  else if jgt m22 m33 then
    let s := (Fin 2 * Math.sqrt (Fin 1 + m22 - m11 - m33))%js in
    Quaternion.mk ((m12 + m21) / s)%js (Fin 0.25 * s)%js
                  ((m23 + m32) / s)%js ((m13 - m31) / s)%js
  else
    let s := (Fin 2 * Math.sqrt (Fin 1 + m33 - m11 - m22))%js in
    Quaternion.mk ((m13 + m31) / s)%js ((m23 + m32) / s)%js
                  (Fin 0.25 * s)%js ((m21 - m12) / s)%js.

(** [MathUtils.clamp] *)
Definition clamp (value lo hi : number) : number :=
  Math.max lo (Math.min hi value).

(** [Euler.setFromRotationMatrix], case 'XYZ', and [Euler.setFromQuaternion]. *)
Definition Euler_setFromRotationMatrix (m : Matrix4.t) : Euler.t :=
  let m11 := Matrix4.te0 m in
  let m12 := Matrix4.te4 m in
  let m13 := Matrix4.te8 m in
  let m22 := Matrix4.te5 m in
  let m23 := Matrix4.te9 m in
  let m32 := Matrix4.te6 m in
  let m33 := Matrix4.te10 m in
  let _y := Math.asin (clamp m13 (Fin (-1)) (Fin 1)) in
  if jlt (Math.abs m13) (Fin 0.9999999) then
    Euler.mk (Math.atan2 (- m23)%js m33) _y (Math.atan2 (- m12)%js m11)
  else
    Euler.mk (Math.atan2 m32 m22) _y (Fin 0).

Definition Euler_setFromQuaternion (q : Quaternion.t) : Euler.t :=
  Euler_setFromRotationMatrix (Matrix4.makeRotationFromQuaternion q).

(** ** three.js: scene-graph nodes *)

Module Object3D.

(** [rotation] (Euler angles) and [quaternion] are two views of the same
    orientation: three.js rewrites one whenever the other is assigned. *)
Record t : Type := mk {
  position : Vector3.t;
  rotation : Euler.t;
  quaternion : Quaternion.t;
  scale : Vector3.t;
  up : Vector3.t }.

(** [new THREE.Object3D()]; a [Mesh], a [Scene] and a camera start with the
    same transform. *)
Definition new : t :=
  mk Vector3.new Euler.new Quaternion.new
     (Vector3.mk (Fin 1) (Fin 1) (Fin 1))
     (Vector3.mk (Fin 0) (Fin 1) (Fin 0)).

Definition set_position (p : Vector3.t) (o : t) : t :=
  mk p (rotation o) (quaternion o) (scale o) (up o).

(** Assigning the Euler angles refreshes the quaternion. *)
Definition set_rotation (e : Euler.t) (o : t) : t :=
  mk (position o) e (Quaternion.setFromEuler e) (scale o) (up o).

(** Assigning the quaternion refreshes the Euler angles. *)
Definition set_quaternion (q : Quaternion.t) (o : t) : t :=
  mk (position o) (Euler_setFromQuaternion q) q (scale o) (up o).

(** [o.position.x = v], [o.position.set(x, y, z)] *)
Definition set_position_x (v : number) (o : t) : t :=
  set_position
    (Vector3.mk v (Vector3.y (position o)) (Vector3.z (position o))) o.

Definition position_set (x y z : number) (o : t) : t :=
  set_position (Vector3.mk x y z) o.

(** [o.rotation.x = v], [o.rotation.y = v], [o.rotation.z = v] *)
Definition set_rotation_x (v : number) (o : t) : t :=
  set_rotation (Euler.mk v (Euler.y (rotation o)) (Euler.z (rotation o))) o.

Definition set_rotation_y (v : number) (o : t) : t :=
  set_rotation (Euler.mk (Euler.x (rotation o)) v (Euler.z (rotation o))) o.

Definition set_rotation_z (v : number) (o : t) : t :=
  set_rotation (Euler.mk (Euler.x (rotation o)) (Euler.y (rotation o)) v) o.

(** [updateMatrix]: the local matrix. *)
Definition matrix (o : t) : Matrix4.t :=
  Matrix4.compose (position o) (quaternion o) (scale o).

(** [updateWorldMatrix(true, false)]: the world matrix of [o] below its
    ancestors, nearest parent first; no ancestor is the root case. *)
Fixpoint matrixWorld (parents : list t) (o : t) : Matrix4.t :=
  match parents with
  | [] => matrix o
  | parent :: ancestors =>
      Matrix4.multiplyMatrices (matrixWorld ancestors parent) (matrix o)
  end.

Definition getWorldPosition (parents : list t) (o : t) : Vector3.t :=
  Matrix4.position (matrixWorld parents o).

(** [o.lookAt(target)].  The scratch matrix [_m1] the library writes the
    rotation into holds the entries of the identity outside its upper 3x3
    block at every call. *)
Definition lookAt (parents : list t) (isCamera : bool)
    (target : Vector3.t) (o : t) : t :=
  let _position := getWorldPosition parents o in
  let _m1 :=
    if isCamera
    then Matrix4.lookAt Matrix4.identity _position target (up o)
    else Matrix4.lookAt Matrix4.identity target _position (up o) in
  let q := Quaternion_setFromRotationMatrix _m1 in
  let q :=
    match parents with
    | [] => q
    | parent :: ancestors =>
        let _m1 := Matrix4.extractRotation (matrixWorld ancestors parent) in
        let _q1 := Quaternion_setFromRotationMatrix _m1 in
        Quaternion.premultiply q (Quaternion.invert _q1)
    end in
  set_quaternion q o.

End Object3D.

Module Camera.

(** [THREE.PerspectiveCamera]; the projection matrix, a cache of the four
    numbers below, is left out. *)
Record t : Type := mk {
  object : Object3D.t;
  fov : number;
  aspect : number;
  near : number;
  far : number }.

Definition position (c : t) : Vector3.t := Object3D.position (object c).

Definition set_aspect (a : number) (c : t) : t :=
  mk (object c) (fov c) a (near c) (far c).

Definition set_object (o : Object3D.t) (c : t) : t :=
  mk o (fov c) (aspect c) (near c) (far c).

End Camera.

Module OrbitControls.

(** The camera controller is an external collaborator: the scripts read
    and write its [target] and call its [update()] once per frame.
    [update()] is kept as the behaviour of the object, in two parts: what
    it does to the target (it moves it on a pan gesture of the user and
    leaves it otherwise) and where it then puts the camera about the
    target. *)
Record t : Type := mk {
  target : Vector3.t;
  enableDamping : bool;
  dampingFactor : number;
  update_camera : Vector3.t -> Camera.t -> Camera.t;
  update_target : Vector3.t -> Vector3.t }.

Definition set_target (v : Vector3.t) (c : t) : t :=
  mk v (enableDamping c) (dampingFactor c) (update_camera c)
     (update_target c).

(** [controls.update()], the controller after it and the camera after it. *)
Definition updated (c : t) : t := set_target (update_target c (target c)) c.

Definition update (c : t) (cam : Camera.t) : Camera.t :=
  update_camera c (target c) cam.

End OrbitControls.

Module WebGLRenderer.

Record t : Type := mk { width : number; height : number; pixelRatio : number }.

Definition setSize (w h : number) (r : t) : t := mk w h (pixelRatio r).

(** [setPixelRatio(v)] stores [v] and re-applies the current size. *)
Definition setPixelRatio (v : number) (r : t) : t :=
  setSize (width r) (height r) (mk (width r) (height r) v).

End WebGLRenderer.

Module CSS2DRenderer.

Record t : Type := mk { width : number; height : number }.

Definition setSize (w h : number) (r : t) : t := mk w h.

End CSS2DRenderer.

(** The host window, as the scripts read it. *)
Record Window : Type := {
  innerWidth : number;
  innerHeight : number;
  devicePixelRatio : number }.

(** One reading of the clock: [clock.getDelta()], [clock.getElapsedTime()]. *)
Record Frame : Type := {
  delta : number;
  elapsedTime : number }.

(** ** Celestial body data *)

Record Descriptor : Type := {
  name : string;
  radius : option R;
  color : option N;
  isSun : bool;
  hasRing : bool;
  orbitalRadius : option R;
  orbitalSpeed : option R;
  rotationSpeed : option R }.

Definition planet (n : string) (r : R) (c : N) (oR oS rS : R) (ring : bool)
    : Descriptor :=
  {| name := n; radius := Some r; color := Some c; isSun := false;
     hasRing := ring; orbitalRadius := Some oR; orbitalSpeed := Some oS;
     rotationSpeed := Some rS |}.

Definition solarSystemData : list Descriptor :=
  [ {| name := "Sun"; radius := Some 20; color := Some 0xFFFF00%N;
       isSun := true; hasRing := false; orbitalRadius := None;
       orbitalSpeed := None; rotationSpeed := None |};
    planet "Mercury" 2 0xAAAAAA 50 0.04 0.01 false;
    planet "Venus" 4 0xFFE4B5 80 0.025 0.005 false;
    planet "Earth" 4.5 0x4682B4 120 0.015 0.02 false;
    planet "Mars" 3 0xFF4500 160 0.01 0.018 false;
    planet "Jupiter" 12 0xD2B48C 220 0.005 0.04 false;
    planet "Saturn" 10 0xF4A460 280 0.003 0.035 true;
    planet "Uranus" 7 0xAFEEEE 340 0.002 0.025 false;
    planet "Neptune" 6.5 0x4169E1 390 0.001 0.023 false ].

(** An element of [celestialObjects]: [{ mesh, pivot, data, isTheo }], with
    the children the builder hangs on the mesh (its label, Saturn's ring).
    The parent of [mesh] is [pivot] when there is one and the scene
    otherwise; the parent of a pivot is the scene. *)
Record Entity : Type := {
  mesh : Object3D.t;
  pivot : option Object3D.t;
  data : Descriptor;
  isTheo : bool;
  label : option Object3D.t;
  ringMesh : option Object3D.t }.

Definition with_mesh (obj : Entity) (m : Object3D.t) : Entity :=
  {| mesh := m; pivot := pivot obj; data := data obj; isTheo := isTheo obj;
     label := label obj; ringMesh := ringMesh obj |}.

Definition with_pivot (obj : Entity) (p : Object3D.t) : Entity :=
  {| mesh := mesh obj; pivot := Some p; data := data obj;
     isTheo := isTheo obj; label := label obj; ringMesh := ringMesh obj |}.

(** [new THREE.Scene()], never transformed. *)
Definition scene : Object3D.t := Object3D.new.

Definition parents (obj : Entity) : list Object3D.t :=
  match pivot obj with
  | Some p => [p; scene]
  | None => [scene]
  end.

(** [obj.mesh.getWorldPosition(...)] *)
Definition worldPosition (obj : Entity) : Vector3.t :=
  Object3D.getWorldPosition (parents obj) (mesh obj).

(** The ring of a body with [hasRing], laid flat: [rotation.x = Math.PI / 2]. *)
Definition createRing (d : Descriptor) : option Object3D.t :=
  if hasRing d
  then Some (Object3D.set_rotation_x (Math.PI / Fin 2)%js Object3D.new)
  else None.

(** What the scripts set up before the bodies: the camera at (0, 150, 400)
    looking at the origin, and the controls aimed at the origin. *)
Definition createCamera (window : Window) : Camera.t :=
  let object := Object3D.position_set (Fin 0) (Fin 150) (Fin 400) Object3D.new in
  let object := Object3D.lookAt [] true (Vector3.mk (Fin 0) (Fin 0) (Fin 0)) object in
  Camera.mk object (Fin 75) (innerWidth window / innerHeight window)%js
            (Fin 0.1) (Fin 2000).

(** No gesture is pending on the new controller: its [update()] leaves the
    target where it is. *)
Definition createControls (update : Vector3.t -> Camera.t -> Camera.t)
    : OrbitControls.t :=
  OrbitControls.mk Vector3.new true (Fin 0.05) update (fun target => target).

(** [renderer.setSize(...)] then [renderer.setPixelRatio(...)] on the new
    renderer. *)
Definition createRenderer (window : Window) : WebGLRenderer.t :=
  WebGLRenderer.mk (innerWidth window) (innerHeight window)
                   (devicePixelRatio window).

(** How a run of the builder ends.  The loop has no [throw] and calls
    nothing that throws on a number or on [undefined]. *)
Inductive BuildError : Type := InvalidDescriptor.

(** ** [script.js] *)

Module Script.

Record State : Type := {
  celestialObjects : list Entity;
  camera : Camera.t;
  controls : OrbitControls.t;
  renderer : WebGLRenderer.t }.

(** The body of [solarSystemData.forEach(data => ...)]: the record pushed
    on [celestialObjects]. *)
Definition createBody (data : Descriptor) : Entity :=
  let mesh := Object3D.new in
  if isSun data then
    {| mesh := mesh; pivot := None; data := data; isTheo := false;
       label := None; ringMesh := None |}
  else
    let orbitPivot := Object3D.new in
    let mesh := Object3D.set_position_x (toNumber (orbitalRadius data)) mesh in
    {| mesh := mesh; pivot := Some orbitPivot; data := data;
       isTheo := false; label := None; ringMesh := createRing data |}.

Definition createBodies (descriptors : list Descriptor) : list Entity :=
  map createBody descriptors.

Definition build (descriptors : list Descriptor)
    : BuildError + list Entity :=
  inr (createBodies descriptors).

Definition startup (window : Window)
    (update : Vector3.t -> Camera.t -> Camera.t) : State :=
  {| celestialObjects := createBodies solarSystemData;
     camera := createCamera window;
     controls := createControls update;
     renderer := createRenderer window |}.

(** The body of [celestialObjects.forEach(obj => ...)] in [animate]. *)
Definition animateObject (obj : Entity) : Entity :=
  let obj :=
    if truthy_prop (rotationSpeed (data obj)) then
      with_mesh obj
        (Object3D.set_rotation_y
           (Euler.y (Object3D.rotation (mesh obj))
            + toNumber (rotationSpeed (data obj)))%js
           (mesh obj))
    else obj in
  match pivot obj with
  | Some p =>
      if truthy_prop (orbitalSpeed (data obj)) then
        with_pivot obj
          (Object3D.set_rotation_y
             (Euler.y (Object3D.rotation p)
              + toNumber (orbitalSpeed (data obj)) * Fin 0.5)%js
             p)
      else obj
  | None => obj
  end.

(** One run of [animate]: the clock is read, the bodies advance, the
    controls update the camera; rendering leaves the state as it is. *)
Definition animate (frame : Frame) (s : State) : State :=
  {| celestialObjects := map animateObject (celestialObjects s);
     camera :=
       OrbitControls.update (OrbitControls.updated (controls s)) (camera s);
     controls := OrbitControls.updated (controls s);
     renderer := renderer s |}.

(** The frames the host schedules, in order. *)
Definition run (frames : list Frame) (s : State) : State :=
  fold_left (fun s frame => animate frame s) frames s.

(** The 'resize' listener. *)
Definition resize (window : Window) (s : State) : State :=
  {| celestialObjects := celestialObjects s;
     camera :=
       Camera.set_aspect (innerWidth window / innerHeight window)%js
         (camera s);
     controls := controls s;
     renderer :=
       WebGLRenderer.setPixelRatio (devicePixelRatio window)
         (WebGLRenderer.setSize (innerWidth window) (innerHeight window)
            (renderer s)) |}.

End Script.

(** ** The variant with labels, click-to-focus and Theo *)

Module Extended.

Record State : Type := {
  celestialObjects : list Entity;
  camera : Camera.t;
  controls : OrbitControls.t;
  targetPosition : Vector3.t;
  renderer : WebGLRenderer.t;
  labelRenderer : CSS2DRenderer.t }.

(** The label of a body, [label.position.set(0, data.radius * 1.5, 0)]. *)
Definition createLabel (data : Descriptor) : Object3D.t :=
  Object3D.position_set (Fin 0) (toNumber (radius data) * Fin 1.5)%js (Fin 0)
    Object3D.new.

Definition createBody (data : Descriptor) : Entity :=
  let mesh := Object3D.new in
  let label := createLabel data in
  if isSun data then
    {| mesh := mesh; pivot := None; data := data; isTheo := false;
       label := Some label; ringMesh := None |}
  else
    let orbitPivot := Object3D.new in
    let mesh := Object3D.set_position_x (toNumber (orbitalRadius data)) mesh in
    {| mesh := mesh; pivot := Some orbitPivot; data := data;
       isTheo := false; label := Some label; ringMesh := createRing data |}.

(** [{ mesh: theoMesh, data: { name: 'Theo' }, isTheo: true }] *)
Definition theo : Entity :=
  {| mesh := Object3D.new; pivot := None;
     data := {| name := "Theo"; radius := None; color := None;
                isSun := false; hasRing := false; orbitalRadius := None;
                orbitalSpeed := None; rotationSpeed := None |};
     isTheo := true; label := None; ringMesh := None |}.

Definition createBodies (descriptors : list Descriptor) : list Entity :=
  map createBody descriptors ++ [theo].

Definition build (descriptors : list Descriptor)
    : BuildError + list Entity :=
  inr (createBodies descriptors).

Definition startup (window : Window)
    (update : Vector3.t -> Camera.t -> Camera.t) : State :=
  {| celestialObjects := createBodies solarSystemData;
     camera := createCamera window;
     controls := createControls update;
     targetPosition := Vector3.new;
     renderer := createRenderer window;
     labelRenderer :=
       CSS2DRenderer.mk (innerWidth window) (innerHeight window) |}.

(** Theo's branch of the loop, up to [obj.mesh.position.set(x, y, z)]. *)
Definition theoPosition (elapsedTime : number) : Vector3.t :=
  let orbitRadiusX := Fin 300 in
  let orbitRadiusZ := Fin 200 in
  let speed := Fin 0.1 in
  let tiltAngle := (Math.PI / Fin 6)%js in
  let angle := (elapsedTime * speed)%js in
  let x := (Math.cos angle * orbitRadiusX)%js in
  let z := (Math.sin angle * orbitRadiusZ)%js in
  let y := (Math.sin angle * orbitRadiusZ * Math.sin tiltAngle)%js in
  let z := (z * Math.cos tiltAngle)%js in
  Vector3.mk x y z.

Definition animateObject (camera : Camera.t) (elapsedTime : number)
    (obj : Entity) : Entity :=
  if isTheo obj then
    let m := Object3D.set_position (theoPosition elapsedTime) (mesh obj) in
    let m :=
      Object3D.set_rotation_z
        (Euler.z (Object3D.rotation m) + Fin 0.005)%js m in
    let m := Object3D.lookAt (parents obj) false (Camera.position camera) m in
    with_mesh obj m
  else
    let obj :=
      if truthy_prop (rotationSpeed (data obj)) then
        with_mesh obj
          (Object3D.set_rotation_y
             (Euler.y (Object3D.rotation (mesh obj))
              + toNumber (rotationSpeed (data obj)))%js
             (mesh obj))
      else obj in
    match pivot obj with
    | Some p =>
        if truthy_prop (orbitalSpeed (data obj)) then
          with_pivot obj
            (Object3D.set_rotation_y
               (Euler.y (Object3D.rotation p)
                + toNumber (orbitalSpeed (data obj)) * Fin 0.5)%js
               p)
        else obj
    | None => obj
    end.

Definition animate (frame : Frame) (s : State) : State :=
  {| celestialObjects :=
       map (animateObject (camera s) (elapsedTime frame))
           (celestialObjects s);
     camera :=
       OrbitControls.update (OrbitControls.updated (controls s)) (camera s);
     controls := OrbitControls.updated (controls s);
     targetPosition := targetPosition s;
     renderer := renderer s;
     labelRenderer := labelRenderer s |}.

Definition run (frames : list Frame) (s : State) : State :=
  fold_left (fun s frame => animate frame s) frames s.

(** [focusOnObject(object)], the mesh named by its place in
    [celestialObjects]: its world position is written into the shared
    [targetPosition], whose components are then copied into
    [controls.target]. *)
Definition focusOnObject (i : nat) (s : State) : State :=
  match nth_error (celestialObjects s) i with
  | Some obj =>
      let targetPosition := worldPosition obj in
      {| celestialObjects := celestialObjects s;
         camera := camera s;
         controls := OrbitControls.set_target targetPosition (controls s);
         targetPosition := targetPosition;
         renderer := renderer s;
         labelRenderer := labelRenderer s |}
  | None => s
  end.

Definition resize (window : Window) (s : State) : State :=
  {| celestialObjects := celestialObjects s;
     camera :=
       Camera.set_aspect (innerWidth window / innerHeight window)%js
         (camera s);
     controls := controls s;
     targetPosition := targetPosition s;
     renderer :=
       WebGLRenderer.setPixelRatio (devicePixelRatio window)
         (WebGLRenderer.setSize (innerWidth window) (innerHeight window)
            (renderer s));
     labelRenderer :=
       CSS2DRenderer.setSize (innerWidth window) (innerHeight window)
         (labelRenderer s) |}.

End Extended.

(** No pan gesture of the user is pending on the controller: its
    [update()] leaves the target where it is. *)
Definition noPanPending (c : OrbitControls.t) : Prop :=
  forall v : Vector3.t, OrbitControls.update_target c v = v.

(** ** The angle accumulators on binary64 numbers

    [mesh.rotation.y] and [pivot.rotation.y] are JavaScript numbers, that
    is IEEE binary64 values, and every [+=] of the loop rounds its sum to
    the nearest one.  The loop body of [animate] (in the richer script, its
    branch for the bodies other than Theo) is transcribed here a second
    time, on the primitive binary64 numbers, for the part of a record it
    reads and writes: the two angles and the two speeds.  A decimal literal
    denotes the nearest binary64 number, as it does in JavaScript. *)

Set Warnings "-inexact-float".

Module Binary64.

Record Descriptor : Type := {
  isSun : bool;
  orbitalSpeed : option float;
  rotationSpeed : option float }.

Definition planet (oS rS : float) : Descriptor :=
  {| isSun := false; orbitalSpeed := Some oS; rotationSpeed := Some rS |}.

(** The speeds of [solarSystemData], entry by entry. *)
Definition solarSystemData : list Descriptor :=
  [ {| isSun := true; orbitalSpeed := None; rotationSpeed := None |};
    planet 0.04 0.01;
    planet 0.025 0.005;
    planet 0.015 0.02;
    planet 0.01 0.018;
    planet 0.005 0.04;
    planet 0.003 0.035;
    planet 0.002 0.025;
    planet 0.001 0.023 ]%float.

(** [obj.mesh.rotation.y], [obj.pivot.rotation.y] where the record has a
    pivot, and [obj.data]. *)
Record Entity : Type := {
  mesh_rotation_y : float;
  pivot_rotation_y : option float;
  data : Descriptor }.

(** A new [Mesh] and a new [Object3D] have the rotation [(0, 0, 0)]. *)
Definition createBody (data : Descriptor) : Entity :=
  {| mesh_rotation_y := 0;
     pivot_rotation_y := if isSun data then None else Some 0%float;
     data := data |}.

Definition createBodies (descriptors : list Descriptor) : list Entity :=
  map createBody descriptors.

(** Truthiness of a number: [0], [-0] and [NaN] are falsy. *)
Definition truthy (a : float) : bool :=
  negb (PrimFloat.is_zero a || PrimFloat.is_nan a).

Definition toNumber (v : option float) : float :=
  match v with Some a => a | None => PrimFloat.nan end.

Definition truthy_prop (v : option float) : bool :=
  match v with Some a => truthy a | None => false end.

(** The body of [celestialObjects.forEach(obj => ...)] in [animate]. *)
Definition animateObject (obj : Entity) : Entity :=
  let obj :=
    if truthy_prop (rotationSpeed (data obj)) then
      {| mesh_rotation_y :=
           (mesh_rotation_y obj + toNumber (rotationSpeed (data obj)))%float;
         pivot_rotation_y := pivot_rotation_y obj;
         data := data obj |}
    else obj in
  match pivot_rotation_y obj with
  | Some angle =>
      if truthy_prop (orbitalSpeed (data obj)) then
        {| mesh_rotation_y := mesh_rotation_y obj;
           pivot_rotation_y :=
             Some (angle + toNumber (orbitalSpeed (data obj)) * 0.5)%float;
           data := data obj |}
      else obj
  | None => obj
  end.

(** One frame, and the frames of a list in turn; the clock readings of a
    frame are not read. *)
Definition animate (frame : Frame) (objs : list Entity) : list Entity :=
  map animateObject objs.

Definition run (frames : list Frame) (objs : list Entity) : list Entity :=
  fold_left (fun objs frame => animate frame objs) frames objs.

(** The rational number a finite binary64 number stands for. *)
Definition exact (a : float) : option Q :=
  match FloatOps.Prim2SF a with
  | SpecFloat.S754_zero _ => Some 0%Q
  | SpecFloat.S754_finite s m e =>
      Some ((if s then -1 else 1) * inject_Z (Zpos m) * Qpower 2 e)%Q
  | _ => None
  end.

End Binary64.

(** Two reals are the same angle when they differ by whole turns. *)
Definition sameAngle (a b : R) : Prop :=
  exists k : Z, a = b + 2 * PI * IZR k.

(** ** The specification's vocabulary *)

(** A malformed descriptor, in the specification's words: a negative
    radius, or a non-central body without [orbitalRadius]. *)
Definition malformed (d : Descriptor) : Prop :=
  (exists r, radius d = Some r /\ r < 0) \/
  (isSun d = false /\ orbitalRadius d = None).

(** A host window and a controller at rest, for concrete runs. *)
Definition window800x600 : Window :=
  {| innerWidth := Fin 800; innerHeight := Fin 600;
     devicePixelRatio := Fin 1 |}.

Definition controlsAtRest (target : Vector3.t) (cam : Camera.t) : Camera.t :=
  cam.

(** [n] frames of a 60 Hz display. *)
Fixpoint frames60Hz (n : nat) (elapsed : R) : list Frame :=
  match n with
  | O => []
  | S k =>
      {| delta := Fin (1 / 60); elapsedTime := Fin (elapsed + 1 / 60) |}
      :: frames60Hz k (elapsed + 1 / 60)
  end.

(** [n] ticks on one entity. *)
Definition ticks (n : nat) (obj : Entity) : Entity :=
  Nat.iter n Script.animateObject obj.

(** A pivot as the builder places it (at the origin, unit scale), turned
    about the Y axis to the angle [theta]. *)
Definition turnedY (theta : R) (p : Object3D.t) : Prop :=
  Object3D.position p = Vector3.new /\
  Object3D.scale p = Vector3.mk (Fin 1) (Fin 1) (Fin 1) /\
  Object3D.rotation p = Euler.mk (Fin 0) (Fin theta) (Fin 0) /\
  Object3D.quaternion p
  = Quaternion.mk (Fin 0) (Fin (sin (theta / 2))) (Fin 0)
                  (Fin (cos (theta / 2))).


(** The fourth entry of [solarSystemData]. *)
Definition earth : Descriptor :=
  planet "Earth" 4.5 0x4682B4 120 0.015 0.02 false.

(** The first entry of [solarSystemData]. *)
Definition sun : Descriptor :=
  {| name := "Sun"; radius := Some 20; color := Some 0xFFFF00%N;
     isSun := true; hasRing := false; orbitalRadius := None;
     orbitalSpeed := None; rotationSpeed := None |}.

(** Two malformed descriptors: a planet of radius -1, and a planet without
    [orbitalRadius]. *)
Definition negativeRadiusBody : Descriptor :=
  planet "Shrunk" (-1) 0x808080 50 0.04 0.01 false.

Definition unplacedBody : Descriptor :=
  {| name := "Adrift"; radius := Some 3; color := Some 0x808080%N;
     isSun := false; hasRing := false; orbitalRadius := None;
     orbitalSpeed := Some 0.01; rotationSpeed := Some 0.01 |}.

(** ** The page as an event loop

    The richer script reacts to three kinds of host events, one at a time:
    the animation frame it re-requests, the window's 'resize', and a click
    on the label of a body.  Only the bodies the builder made carry a label
    (Theo has none), so a click reaches [focusOnObject] with the mesh of a
    labelled record. *)

Module EventLoop.

Inductive Event : Type :=
| AnimationFrame (frame : Frame)
| WindowResize (window : Window)
| LabelClick (i : nat).

Definition clickLabel (i : nat) (s : Extended.State) : Extended.State :=
  match nth_error (Extended.celestialObjects s) i with
  | Some obj =>
      match label obj with
      | Some _ => Extended.focusOnObject i s
      | None => s
      end
  | None => s
  end.

Definition dispatch (e : Event) (s : Extended.State) : Extended.State :=
  match e with
  | AnimationFrame frame => Extended.animate frame s
  | WindowResize window => Extended.resize window s
  | LabelClick i => clickLabel i s
  end.

Definition run (events : list Event) (s : Extended.State) : Extended.State :=
  fold_left (fun s e => dispatch e s) events s.

Fixpoint frameCount (events : list Event) : nat :=
  match events with
  | [] => O
  | AnimationFrame _ :: rest => S (frameCount rest)
  | _ :: rest => frameCount rest
  end.

Definition isClick (e : Event) : bool :=
  match e with LabelClick _ => true | _ => false end.

End EventLoop.

(** ** Children of a mesh in the world *)

(** The label and the ring hang below the mesh, which hangs below its
    parents. *)
Definition labelWorldPosition (obj : Entity) : option Vector3.t :=
  option_map (Object3D.getWorldPosition (mesh obj :: parents obj))
             (label obj).

Definition ringWorldMatrix (obj : Entity) : option Matrix4.t :=
  option_map (Object3D.matrixWorld (mesh obj :: parents obj))
             (ringMesh obj).

(** A rotation by [alpha] about the Y axis followed by a translation, as a
    column-major matrix. *)
Definition yawMatrix (alpha tx ty tz : R) : Matrix4.t :=
  Matrix4.mk (Fin (cos alpha)) (Fin 0) (Fin (- sin alpha)) (Fin 0)
             (Fin 0) (Fin 1) (Fin 0) (Fin 0)
             (Fin (sin alpha)) (Fin 0) (Fin (cos alpha)) (Fin 0)
             (Fin tx) (Fin ty) (Fin tz) (Fin 1).

(** A node of unit scale spun about its Y axis to the angle [phi]. *)
Definition spunY (phi : R) (o : Object3D.t) : Prop :=
  Object3D.scale o = Vector3.mk (Fin 1) (Fin 1) (Fin 1) /\
  Object3D.rotation o = Euler.mk (Fin 0) (Fin phi) (Fin 0) /\
  Object3D.quaternion o
  = Quaternion.mk (Fin 0) (Fin (sin (phi / 2))) (Fin 0)
                  (Fin (cos (phi / 2))).

(** The half turn per frame of a body: [orbitalSpeed * 0.5] when the
    stepper's test on [orbitalSpeed] passes, nothing otherwise. *)
Definition orbitStep (d : Descriptor) : R :=
  match orbitalSpeed d with Some s => s * 0.5 | None => 0 end.

Definition spinStep (d : Descriptor) : R :=
  match rotationSpeed d with Some r => r | None => 0 end.

(** ** Rotation matrices *)

(** Nine reals, read column by column (X, Y, Z), form a rotation matrix: X
    and Z are unit vectors at a right angle and Y is Z x X. *)
Definition isRotation (m11 m21 m31 m12 m22 m32 m13 m23 m33 : R) : Prop :=
  m11 * m11 + m21 * m21 + m31 * m31 = 1 /\
  m13 * m13 + m23 * m23 + m33 * m33 = 1 /\
  m11 * m13 + m21 * m23 + m31 * m33 = 0 /\
  m12 = m23 * m31 - m33 * m21 /\
  m22 = m33 * m11 - m13 * m31 /\
  m32 = m13 * m21 - m23 * m11.

(** The nine entries [Matrix4.compose] computes from the quaternion
    [(x, y, z, w)] at unit scale are the given ones. *)
Definition quaternionGives
    (x y z w m11 m21 m31 m12 m22 m32 m13 m23 m33 : R) : Prop :=
  1 - (y * (y + y) + z * (z + z)) = m11 /\
  x * (y + y) + w * (z + z) = m21 /\
  x * (z + z) - w * (y + y) = m31 /\
  x * (y + y) - w * (z + z) = m12 /\
  1 - (x * (x + x) + z * (z + z)) = m22 /\
  y * (z + z) + w * (x + x) = m32 /\
  x * (z + z) + w * (y + y) = m13 /\
  y * (z + z) - w * (x + x) = m23 /\
  1 - (x * (x + x) + y * (y + y)) = m33.

(** * Properties *)

(** ** Numbers *)

Lemma jdiv_Fin (a b : R) : b <> 0 -> (Fin a / Fin b)%js = Fin (a / b).
Proof.
  intros Hb. unfold jdiv. destruct (Req_dec_T b 0); [contradiction | reflexivity].
Qed.

Lemma truthy_prop_false (v : R) : truthy_prop (Some v) = false -> v = 0.
Proof.
  unfold truthy_prop, truthy. destruct (Req_dec_T v 0); [auto | discriminate].
Qed.

(** ** The stepper, one entity at a time *)

Section OneEntity.

Variable obj : Entity.

Lemma animateObject_data : data (Script.animateObject obj) = data obj.
Proof.
  unfold Script.animateObject.
  destruct (truthy_prop (rotationSpeed (data obj))); simpl;
    destruct (pivot obj); simpl;
    destruct (truthy_prop (orbitalSpeed (data obj))); reflexivity.
Qed.

Lemma animateObject_isTheo : isTheo (Script.animateObject obj) = isTheo obj.
Proof.
  unfold Script.animateObject.
  destruct (truthy_prop (rotationSpeed (data obj))); simpl;
    destruct (pivot obj); simpl;
    destruct (truthy_prop (orbitalSpeed (data obj))); reflexivity.
Qed.

(** The mesh keeps its local position, scale and up vector. *)
Lemma animateObject_mesh_position :
  Object3D.position (mesh (Script.animateObject obj))
  = Object3D.position (mesh obj).
Proof.
  unfold Script.animateObject.
  destruct (truthy_prop (rotationSpeed (data obj))); simpl;
    destruct (pivot obj); simpl;
    destruct (truthy_prop (orbitalSpeed (data obj))); reflexivity.
Qed.

Lemma animateObject_no_pivot :
  pivot obj = None -> pivot (Script.animateObject obj) = None.
Proof.
  intros Hp. unfold Script.animateObject, with_mesh.
  destruct (truthy_prop (rotationSpeed (data obj))); simpl; rewrite Hp;
    auto.
Qed.

Lemma animateObject_pivot (p : Object3D.t) :
  pivot obj = Some p ->
  pivot (Script.animateObject obj)
  = Some (if truthy_prop (orbitalSpeed (data obj))
          then Object3D.set_rotation_y
                 (Euler.y (Object3D.rotation p)
                  + toNumber (orbitalSpeed (data obj)) * Fin 0.5)%js p
          else p).
Proof.
  intros Hp. unfold Script.animateObject, with_mesh.
  destruct (truthy_prop (rotationSpeed (data obj))); simpl; rewrite Hp;
    destruct (truthy_prop (orbitalSpeed (data obj))); simpl; auto.
Qed.

(** Away from Theo the richer loop body is the one of [script.js]. *)
Lemma animateObject_agree (cam : Camera.t) (t : number) :
  isTheo obj = false ->
  Extended.animateObject cam t obj = Script.animateObject obj.
Proof.
  intros Hth. unfold Extended.animateObject. rewrite Hth. reflexivity.
Qed.

End OneEntity.

Lemma ticks_data (n : nat) (obj : Entity) : data (ticks n obj) = data obj.
Proof.
  induction n as [|n IH]; simpl; [reflexivity|].
  now rewrite animateObject_data.
Qed.

Lemma ticks_isTheo (n : nat) (obj : Entity) : isTheo (ticks n obj) = isTheo obj.
Proof.
  induction n as [|n IH]; simpl; [reflexivity|].
  now rewrite animateObject_isTheo.
Qed.

Lemma ticks_mesh_position (n : nat) (obj : Entity) :
  Object3D.position (mesh (ticks n obj)) = Object3D.position (mesh obj).
Proof.
  induction n as [|n IH]; simpl; [reflexivity|].
  now rewrite animateObject_mesh_position.
Qed.

Lemma ticks_no_pivot (n : nat) (obj : Entity) :
  pivot obj = None -> pivot (ticks n obj) = None.
Proof.
  intros Hp. induction n as [|n IH]; simpl; [assumption|].
  now apply animateObject_no_pivot.
Qed.

(** ** The stepper on the whole collection *)

Lemma ticks_succ_r (n : nat) (obj : Entity) :
  ticks (S n) obj = ticks n (Script.animateObject obj).
Proof. unfold ticks. apply Nat.iter_succ_r. Qed.

Lemma Script_run_nth (frames : list Frame) :
  forall (s : Script.State) (i : nat) (obj : Entity),
    nth_error (Script.celestialObjects s) i = Some obj ->
    nth_error (Script.celestialObjects (Script.run frames s)) i
    = Some (ticks (length frames) obj).
Proof.
  induction frames as [|frame frames IH]; intros s i obj Hi.
  - exact Hi.
  - change (Script.run (frame :: frames) s)
      with (Script.run frames (Script.animate frame s)).
    change (length (frame :: frames)) with (S (length frames)).
    rewrite ticks_succ_r. apply IH. simpl.
    now apply map_nth_error.
Qed.

Lemma Extended_run_nth (frames : list Frame) :
  forall (s : Extended.State) (i : nat) (obj : Entity),
    nth_error (Extended.celestialObjects s) i = Some obj ->
    isTheo obj = false ->
    nth_error (Extended.celestialObjects (Extended.run frames s)) i
    = Some (ticks (length frames) obj).
Proof.
  induction frames as [|frame frames IH]; intros s i obj Hi Hth.
  - exact Hi.
  - change (Extended.run (frame :: frames) s)
      with (Extended.run frames (Extended.animate frame s)).
    change (length (frame :: frames)) with (S (length frames)).
    rewrite ticks_succ_r. apply IH.
    + simpl.
      rewrite <- (animateObject_agree obj (Extended.camera s)
                    (elapsedTime frame) Hth).
      now apply map_nth_error.
    + now rewrite animateObject_isTheo.
Qed.

(** The builders yield one record per descriptor, in order. *)
Lemma Script_createBodies_nth (ds : list Descriptor) (i : nat) (d : Descriptor) :
  nth_error ds i = Some d ->
  nth_error (Script.createBodies ds) i = Some (Script.createBody d).
Proof. intros Hd. unfold Script.createBodies. now apply map_nth_error. Qed.

Lemma Extended_createBodies_nth (ds : list Descriptor) (i : nat)
    (d : Descriptor) :
  nth_error ds i = Some d ->
  nth_error (Extended.createBodies ds) i = Some (Extended.createBody d).
Proof.
  intros Hd. unfold Extended.createBodies.
  rewrite nth_error_app1.
  - now apply map_nth_error.
  - rewrite length_map. apply nth_error_Some. congruence.
Qed.

Lemma Script_createBody_data (d : Descriptor) : data (Script.createBody d) = d.
Proof. unfold Script.createBody. destruct (isSun d); reflexivity. Qed.

Lemma Extended_createBody_data (d : Descriptor) :
  data (Extended.createBody d) = d.
Proof. unfold Extended.createBody. destruct (isSun d); reflexivity. Qed.

Lemma Extended_createBody_isTheo (d : Descriptor) :
  isTheo (Extended.createBody d) = false.
Proof. unfold Extended.createBody. destruct (isSun d); reflexivity. Qed.

(** ** World positions *)

(** Two matrices with the same sixteen elements are equal. *)
Lemma Matrix4_ext (a b : Matrix4.t) :
  Matrix4.te0 a = Matrix4.te0 b -> Matrix4.te1 a = Matrix4.te1 b ->
  Matrix4.te2 a = Matrix4.te2 b -> Matrix4.te3 a = Matrix4.te3 b ->
  Matrix4.te4 a = Matrix4.te4 b -> Matrix4.te5 a = Matrix4.te5 b ->
  Matrix4.te6 a = Matrix4.te6 b -> Matrix4.te7 a = Matrix4.te7 b ->
  Matrix4.te8 a = Matrix4.te8 b -> Matrix4.te9 a = Matrix4.te9 b ->
  Matrix4.te10 a = Matrix4.te10 b -> Matrix4.te11 a = Matrix4.te11 b ->
  Matrix4.te12 a = Matrix4.te12 b -> Matrix4.te13 a = Matrix4.te13 b ->
  Matrix4.te14 a = Matrix4.te14 b -> Matrix4.te15 a = Matrix4.te15 b ->
  a = b.
Proof.
  destruct a, b; simpl; intros; subst; reflexivity.
Qed.

(** The world matrix of the untransformed scene is the identity. *)
Lemma scene_matrix : Object3D.matrix scene = Matrix4.identity.
Proof.
  apply Matrix4_ext; simpl; f_equal; ring.
Qed.

(** The translation column of a product. *)
Lemma position_multiplyMatrices (a b : Matrix4.t) :
  Matrix4.position (Matrix4.multiplyMatrices a b)
  = Vector3.mk
      (Matrix4.te0 a * Matrix4.te12 b + Matrix4.te4 a * Matrix4.te13 b
       + Matrix4.te8 a * Matrix4.te14 b + Matrix4.te12 a * Matrix4.te15 b)%js
      (Matrix4.te1 a * Matrix4.te12 b + Matrix4.te5 a * Matrix4.te13 b
       + Matrix4.te9 a * Matrix4.te14 b + Matrix4.te13 a * Matrix4.te15 b)%js
      (Matrix4.te2 a * Matrix4.te12 b + Matrix4.te6 a * Matrix4.te13 b
       + Matrix4.te10 a * Matrix4.te14 b + Matrix4.te14 a * Matrix4.te15 b)%js.
Proof. reflexivity. Qed.

(** The identity is neutral on the left of a matrix of finite numbers (a
    [NaN] element would spread to its whole row). *)
Lemma multiply_identity_Fin (m : Matrix4.t)
    (a0 a1 a2 a3 a4 a5 a6 a7 a8 a9 a10 a11 a12 a13 a14 a15 : R) :
  m = Matrix4.mk (Fin a0) (Fin a1) (Fin a2) (Fin a3)
                 (Fin a4) (Fin a5) (Fin a6) (Fin a7)
                 (Fin a8) (Fin a9) (Fin a10) (Fin a11)
                 (Fin a12) (Fin a13) (Fin a14) (Fin a15) ->
  Matrix4.multiplyMatrices Matrix4.identity m = m.
Proof.
  intros ->. apply Matrix4_ext; simpl; f_equal; ring.
Qed.

(** Directly below the scene, a mesh sits where its local position says. *)
Lemma worldPosition_no_pivot (obj : Entity) (a b c : R) :
  pivot obj = None ->
  Object3D.position (mesh obj) = Vector3.mk (Fin a) (Fin b) (Fin c) ->
  worldPosition obj = Vector3.mk (Fin a) (Fin b) (Fin c).
Proof.
  intros Hp Hpos.
  unfold worldPosition, parents, Object3D.getWorldPosition. rewrite Hp.
  cbn [Object3D.matrixWorld]. rewrite scene_matrix, position_multiplyMatrices.
  unfold Object3D.matrix, Matrix4.compose. rewrite Hpos. simpl.
  f_equal; f_equal; ring.
Qed.

(** A pivot turned about Y carries the quaternion of the half angle. *)
Lemma turnedY_new : turnedY 0 Object3D.new.
Proof.
  unfold turnedY. simpl. repeat split.
  replace (0 / 2) with 0 by lra. now rewrite sin_0, cos_0.
Qed.

Lemma setFromEuler_Y (theta : R) :
  Quaternion.setFromEuler (Euler.mk (Fin 0) (Fin theta) (Fin 0))
  = Quaternion.mk (Fin 0) (Fin (sin (theta / 2))) (Fin 0)
                  (Fin (cos (theta / 2))).
Proof.
  unfold Quaternion.setFromEuler. cbn [Euler.x Euler.y Euler.z].
  rewrite !jdiv_Fin by lra. simpl.
  replace (0 / 2) with 0 by lra. rewrite sin_0, cos_0.
  f_equal; f_equal; ring.
Qed.

Lemma turnedY_set (theta a : R) (p : Object3D.t) :
  turnedY theta p -> turnedY a (Object3D.set_rotation_y (Fin a) p).
Proof.
  intros (Hpos & Hsc & Hrot & _).
  unfold turnedY, Object3D.set_rotation_y, Object3D.set_rotation.
  rewrite Hrot. cbn. rewrite setFromEuler_Y. auto.
Qed.


Lemma ticks_pivot_turnedY (n : nat) (obj : Entity) (p : Object3D.t)
    (s theta : R) :
  pivot obj = Some p ->
  orbitalSpeed (data obj) = Some s ->
  turnedY theta p ->
  exists p',
    pivot (ticks n obj) = Some p' /\
    turnedY (theta + INR n * (s * 0.5)) p'.
Proof.
  intros Hp Hs Ht. induction n as [|n (p' & Hp' & Ht')].
  - exists p. split; [assumption|].
    simpl. now replace (theta + 0 * (s * 0.5)) with theta by lra.
  - change (ticks (S n) obj) with (Script.animateObject (ticks n obj)).
    rewrite (animateObject_pivot _ _ Hp'), ticks_data, Hs.
    eexists. split; [reflexivity|].
    rewrite S_INR.
    destruct (truthy_prop (Some s)) eqn:Hts.
    + destruct Ht' as (Hpos & Hsc & Hrot & Hq) eqn:E. rewrite Hrot. simpl.
      replace (theta + (INR n + 1) * (s * 0.5))
        with (theta + INR n * (s * 0.5) + s * 0.5) by lra.
      apply (turnedY_set (theta + INR n * (s * 0.5))).
      exact (conj Hpos (conj Hsc (conj Hrot Hq))).
    + apply truthy_prop_false in Hts. subst s.
      replace (theta + (INR n + 1) * (0 * 0.5))
        with (theta + INR n * (0 * 0.5)) by lra.
      exact Ht'.
Qed.

(** The local matrix of a pivot turned to [theta]: a rotation about Y. *)
Lemma matrix_turnedY (theta : R) (p : Object3D.t) :
  turnedY theta p ->
  Object3D.matrix p
  = Matrix4.mk (Fin (cos theta)) (Fin 0) (Fin (- sin theta)) (Fin 0)
               (Fin 0) (Fin 1) (Fin 0) (Fin 0)
               (Fin (sin theta)) (Fin 0) (Fin (cos theta)) (Fin 0)
               (Fin 0) (Fin 0) (Fin 0) (Fin 1).
Proof.
  intros (Hpos & Hsc & Hrot & Hq).
  unfold Object3D.matrix. rewrite Hpos, Hsc, Hq.
  replace (cos theta) with (cos (2 * (theta / 2))) by (f_equal; lra).
  replace (sin theta) with (sin (2 * (theta / 2))) by (f_equal; lra).
  rewrite cos_2a_sin, sin_2a.
  apply Matrix4_ext; simpl; f_equal; ring.
Qed.

(** Below a pivot at the origin turned to [theta], a mesh at local
    [(r, 0, 0)] is at [(r cos theta, 0, - r sin theta)] in the world: a
    positive turn about Y carries the X axis towards negative Z. *)
Lemma worldPosition_turnedY (obj : Entity) (p : Object3D.t) (r theta : R) :
  pivot obj = Some p ->
  turnedY theta p ->
  Object3D.position (mesh obj) = Vector3.mk (Fin r) (Fin 0) (Fin 0) ->
  worldPosition obj
  = Vector3.mk (Fin (r * cos theta)) (Fin 0) (Fin (- (r * sin theta))).
Proof.
  intros Hp Ht Hm.
  unfold worldPosition, parents, Object3D.getWorldPosition. rewrite Hp.
  cbn [Object3D.matrixWorld]. rewrite scene_matrix.
  rewrite (matrix_turnedY _ _ Ht).
  rewrite (multiply_identity_Fin _ _ _ _ _ _ _ _ _ _ _ _ _ _ _ _ _ eq_refl).
  rewrite position_multiplyMatrices.
  unfold Object3D.matrix, Matrix4.compose. rewrite Hm. simpl.
  f_equal; f_equal; ring.
Qed.

(** ** Decimal enclosures of the scenario values *)

Lemma INR_fact_IZR (k : nat) (z : Z) :
  Z.of_nat (fact k) = z -> INR (fact k) = IZR z.
Proof. intros <-. apply INR_IZR_INZ. Qed.

Lemma cos_approx_3 (a : R) :
  cos_approx a 3 = 1 - a ^ 2 / 2 + a ^ 4 / 24 - a ^ 6 / 720.
Proof.
  unfold cos_approx, cos_term. cbn [sum_f_R0 Nat.mul Nat.add].
  rewrite (INR_fact_IZR 0 1), (INR_fact_IZR 2 2), (INR_fact_IZR 4 24),
    (INR_fact_IZR 6 720) by (vm_compute; reflexivity).
  simpl pow. field.
Qed.

Lemma cos_approx_4 (a : R) :
  cos_approx a 4 = cos_approx a 3 + a ^ 8 / 40320.
Proof.
  unfold cos_approx. cbn [sum_f_R0]. f_equal.
  unfold cos_term. cbn [Nat.mul Nat.add].
  rewrite (INR_fact_IZR 8 40320) by (vm_compute; reflexivity).
  simpl pow. field.
Qed.

Lemma sin_approx_3 (a : R) :
  sin_approx a 3 = a - a ^ 3 / 6 + a ^ 5 / 120 - a ^ 7 / 5040.
Proof.
  unfold sin_approx, sin_term. cbn [sum_f_R0 Nat.mul Nat.add].
  rewrite (INR_fact_IZR 1 1), (INR_fact_IZR 3 6), (INR_fact_IZR 5 120),
    (INR_fact_IZR 7 5040) by (vm_compute; reflexivity).
  simpl pow. field.
Qed.

Lemma sin_approx_4 (a : R) :
  sin_approx a 4 = sin_approx a 3 + a ^ 9 / 362880.
Proof.
  unfold sin_approx. cbn [sum_f_R0]. f_equal.
  unfold sin_term. cbn [Nat.mul Nat.add].
  rewrite (INR_fact_IZR 9 362880) by (vm_compute; reflexivity).
  simpl pow. field.
Qed.

(** Four and five terms of the alternating series enclose the value. *)
Lemma cos_enclosure (a : R) :
  -2 <= a <= 2 ->
  1 - a ^ 2 / 2 + a ^ 4 / 24 - a ^ 6 / 720 <= cos a
  <= 1 - a ^ 2 / 2 + a ^ 4 / 24 - a ^ 6 / 720 + a ^ 8 / 40320.
Proof.
  intros [Ha Hb]. destruct (pre_cos_bound a 1 Ha Hb) as [Hlo Hhi].
  change (2 * 1 + 1)%nat with 3%nat in Hlo.
  change (2 * (1 + 1))%nat with 4%nat in Hhi.
  rewrite cos_approx_4 in Hhi. rewrite cos_approx_3 in Hlo, Hhi.
  split; assumption.
Qed.

Lemma sin_enclosure (a : R) :
  0 <= a <= 4 ->
  a - a ^ 3 / 6 + a ^ 5 / 120 - a ^ 7 / 5040 <= sin a
  <= a - a ^ 3 / 6 + a ^ 5 / 120 - a ^ 7 / 5040 + a ^ 9 / 362880.
Proof.
  intros [Ha Hb]. destruct (pre_sin_bound a 1 Ha Hb) as [Hlo Hhi].
  change (2 * 1 + 1)%nat with 3%nat in Hlo.
  change (2 * (1 + 1))%nat with 4%nat in Hhi.
  rewrite sin_approx_4 in Hhi. rewrite sin_approx_3 in Hlo, Hhi.
  split; assumption.
Qed.



Lemma cos_1_bounds : 0.5402 < cos 1 < 0.5404.
Proof.
  destruct (cos_enclosure 1) as [Hlo Hhi]; [lra|].
  simpl pow in Hlo, Hhi. split; lra.
Qed.

Lemma sin_1_bounds : 0.84146 < sin 1 < 0.84148.
Proof.
  destruct (sin_enclosure 1) as [Hlo Hhi]; [lra|].
  simpl pow in Hlo, Hhi. split; lra.
Qed.

Lemma sqrt_3_bounds : 1.73205 < sqrt 3 < 1.73206.
Proof.
  split.
  - rewrite <- (sqrt_square 1.73205) by lra. apply sqrt_lt_1; lra.
  - rewrite <- (sqrt_square 1.73206) by lra. apply sqrt_lt_1; lra.
Qed.

(** ** What the builders produce *)

Lemma Script_createBody_planet (d : Descriptor) :
  isSun d = false ->
  pivot (Script.createBody d) = Some Object3D.new /\
  Object3D.position (mesh (Script.createBody d))
  = Vector3.mk (toNumber (orbitalRadius d)) (Fin 0) (Fin 0).
Proof. intros Hs. unfold Script.createBody. rewrite Hs. split; reflexivity. Qed.

Lemma Extended_createBody_planet (d : Descriptor) :
  isSun d = false ->
  pivot (Extended.createBody d) = Some Object3D.new /\
  Object3D.position (mesh (Extended.createBody d))
  = Vector3.mk (toNumber (orbitalRadius d)) (Fin 0) (Fin 0).
Proof. intros Hs. unfold Extended.createBody. rewrite Hs. split; reflexivity. Qed.

Lemma Script_createBody_sun (d : Descriptor) :
  isSun d = true ->
  pivot (Script.createBody d) = None /\
  Object3D.position (mesh (Script.createBody d)) = Vector3.new.
Proof. intros Hs. unfold Script.createBody. rewrite Hs. split; reflexivity. Qed.

Lemma Extended_createBody_sun (d : Descriptor) :
  isSun d = true ->
  pivot (Extended.createBody d) = None /\
  Object3D.position (mesh (Extended.createBody d)) = Vector3.new.
Proof. intros Hs. unfold Extended.createBody. rewrite Hs. split; reflexivity. Qed.

(** Earth's record after [n] ticks: the pivot has turned by [n * 0.0075]. *)
Lemma ticks_earth (n : nat) (obj : Entity) :
  data obj = earth ->
  pivot obj = Some Object3D.new ->
  Object3D.position (mesh obj) = Vector3.mk (Fin 120) (Fin 0) (Fin 0) ->
  exists p,
    pivot (ticks n obj) = Some p /\
    Euler.y (Object3D.rotation p) = Fin (INR n * 0.0075) /\
    worldPosition (ticks n obj)
    = Vector3.mk (Fin (120 * cos (INR n * 0.0075))) (Fin 0)
                 (Fin (- (120 * sin (INR n * 0.0075)))).
Proof.
  intros Hd Hp Hm.
  destruct (ticks_pivot_turnedY n obj Object3D.new 0.015 0 Hp)
    as (p & Hp' & Ht); [now rewrite Hd | apply turnedY_new |].
  replace (0 + INR n * (0.015 * 0.5)) with (INR n * 0.0075) in Ht by lra.
  exists p. split; [assumption|]. split.
  - destruct Ht as (_ & _ & Hrot & _). now rewrite Hrot.
  - apply (worldPosition_turnedY _ p); [assumption | assumption |].
    now rewrite ticks_mesh_position.
Qed.


(** ** The claims *)




(** ** The accumulators, frame after frame *)

Lemma Binary64_animateObject_data (obj : Binary64.Entity) :
  Binary64.data (Binary64.animateObject obj) = Binary64.data obj.
Proof.
  unfold Binary64.animateObject.
  destruct (Binary64.truthy_prop (Binary64.rotationSpeed (Binary64.data obj)));
    cbn [Binary64.pivot_rotation_y Binary64.data];
    destruct (Binary64.pivot_rotation_y obj);
    try destruct (Binary64.truthy_prop
                    (Binary64.orbitalSpeed (Binary64.data obj)));
    reflexivity.
Qed.

Lemma Binary64_animateObject_mesh (obj : Binary64.Entity) :
  Binary64.mesh_rotation_y (Binary64.animateObject obj)
  = if Binary64.truthy_prop (Binary64.rotationSpeed (Binary64.data obj))
    then (Binary64.mesh_rotation_y obj
          + Binary64.toNumber (Binary64.rotationSpeed (Binary64.data obj)))%float
    else Binary64.mesh_rotation_y obj.
Proof.
  unfold Binary64.animateObject.
  destruct (Binary64.truthy_prop (Binary64.rotationSpeed (Binary64.data obj)));
    cbn [Binary64.pivot_rotation_y Binary64.data];
    destruct (Binary64.pivot_rotation_y obj);
    try destruct (Binary64.truthy_prop
                    (Binary64.orbitalSpeed (Binary64.data obj)));
    reflexivity.
Qed.

Lemma Binary64_animateObject_pivot (obj : Binary64.Entity) :
  Binary64.pivot_rotation_y (Binary64.animateObject obj)
  = match Binary64.pivot_rotation_y obj with
    | Some angle =>
        Some (if Binary64.truthy_prop
                   (Binary64.orbitalSpeed (Binary64.data obj))
              then (angle
                    + Binary64.toNumber
                        (Binary64.orbitalSpeed (Binary64.data obj)) * 0.5)%float
              else angle)
    | None => None
    end.
Proof.
  unfold Binary64.animateObject.
  destruct (Binary64.truthy_prop (Binary64.rotationSpeed (Binary64.data obj)));
    cbn [Binary64.pivot_rotation_y Binary64.data];
    destruct (Binary64.pivot_rotation_y obj) as [angle|] eqn:Hp;
    try destruct (Binary64.truthy_prop
                    (Binary64.orbitalSpeed (Binary64.data obj)));
    cbn [Binary64.pivot_rotation_y]; try rewrite Hp; reflexivity.
Qed.

Lemma Binary64_iter_data (n : nat) (obj : Binary64.Entity) :
  Binary64.data (Nat.iter n Binary64.animateObject obj) = Binary64.data obj.
Proof.
  induction n as [|n IH]; [reflexivity|].
  rewrite Nat.iter_succ, Binary64_animateObject_data. exact IH.
Qed.

Lemma Binary64_run_nth (frames : list Frame) :
  forall (objs : list Binary64.Entity) (i : nat) (obj : Binary64.Entity),
    nth_error objs i = Some obj ->
    nth_error (Binary64.run frames objs) i
    = Some (Nat.iter (length frames) Binary64.animateObject obj).
Proof.
  induction frames as [|frame frames IH]; intros objs i obj Hi; [exact Hi|].
  change (Binary64.run (frame :: frames) objs)
    with (Binary64.run frames (Binary64.animate frame objs)).
  change (length (frame :: frames)) with (S (length frames)).
  rewrite Nat.iter_succ_r. apply IH.
  unfold Binary64.animate. apply map_nth_error, Hi.
Qed.

(** Angles less than two turns apart are the same angle only if equal. *)
Lemma sameAngle_near (a b : R) :
  -4 < a - b < 4 -> sameAngle a b -> a = b.
Proof.
  intros Hab [k Hk].
  assert (HP : 2 < PI) by (pose proof PI2_1; lra).
  destruct (Z_lt_le_dec k 0) as [Hneg|Hpos].
  - assert (IZR k <= -1) by (apply IZR_le; lia).
    assert (PI * IZR k <= -2) by nra. lra.
  - destruct (Z_le_lt_eq_dec 0 k Hpos) as [Hlt|<-].
    + assert (1 <= IZR k) by (apply IZR_le; lia).
      assert (2 <= PI * IZR k) by nra. lra.
    + lra.
Qed.

(** C2.  A body whose descriptor carries [rotationSpeed = r] has, after any
    [N] frames, the mesh self-rotation angle that [N] successive binary64
    additions of [r] to its initial angle give, each one rounded, whatever
    the clock readings of those frames were; a falsy [r] ([0], [-0], [NaN])
    leaves the angle as it is. *)
Theorem self_rotation_adds_rounded_steps :
  forall (frames : list Frame) (objs : list Binary64.Entity) (i : nat)
         (obj : Binary64.Entity) (r : float),
    nth_error objs i = Some obj ->
    Binary64.rotationSpeed (Binary64.data obj) = Some r ->
    exists obj',
      nth_error (Binary64.run frames objs) i = Some obj' /\
      Binary64.mesh_rotation_y obj'
      = if Binary64.truthy r
        then Nat.iter (length frames) (fun angle => (angle + r)%float)
               (Binary64.mesh_rotation_y obj)
        else Binary64.mesh_rotation_y obj.
Proof.
  intros frames objs i obj r Hi Hr.
  exists (Nat.iter (length frames) Binary64.animateObject obj).
  split; [apply Binary64_run_nth, Hi|].
  induction (length frames) as [|n IH].
  - destruct (Binary64.truthy r); reflexivity.
  - rewrite !Nat.iter_succ.
    rewrite Binary64_animateObject_mesh, Binary64_iter_data, Hr, IH.
    cbn [Binary64.truthy_prop Binary64.toNumber].
    destruct (Binary64.truthy r); reflexivity.
Qed.

Lemma self_rotation_adds_rounded_steps_witness :
  exists obj',
    nth_error (Binary64.run (frames60Hz 6 0)
                 (Binary64.createBodies Binary64.solarSystemData)) 3
    = Some obj' /\
    Binary64.mesh_rotation_y obj' = 0.12000000000000001%float.
Proof.
  exact (self_rotation_adds_rounded_steps (frames60Hz 6 0)
           (Binary64.createBodies Binary64.solarSystemData) 3
           (Binary64.createBody (Binary64.planet 0.015 0.02)) 0.02%float
           eq_refl eq_refl).
Defined.

(** Six frames of Earth's [rotationSpeed], 0.02, from the angle 0 leave the
    mesh at 0.12000000000000001, which is neither six times the decimal
    0.02 nor six times the binary64 number written 0.02, also not up to
    whole turns. *)
Lemma six_spin_steps_are_not_six_times_the_step :
  exists (obj' : Binary64.Entity) (angle step : Q),
    nth_error (Binary64.run (frames60Hz 6 0)
                 (Binary64.createBodies Binary64.solarSystemData)) 3
    = Some obj' /\
    Binary64.rotationSpeed (Binary64.data obj') = Some 0.02%float /\
    Binary64.exact 0.02 = Some step /\
    Binary64.exact (Binary64.mesh_rotation_y obj') = Some angle /\
    ~ sameAngle (Q2R angle) (0 + 6 * 0.02) /\
    ~ sameAngle (Q2R angle) (0 + 6 * Q2R step).
Proof.
  exists (Nat.iter 6 Binary64.animateObject
            (Binary64.createBody (Binary64.planet 0.015 0.02))),
         (8646911284551353 # 72057594037927936)%Q,
         (5764607523034235 # 288230376151711744)%Q.
  split; [apply (Binary64_run_nth (frames60Hz 6 0)); reflexivity|].
  split; [rewrite Binary64_iter_data; reflexivity|].
  split; [vm_compute; reflexivity|].
  split; [vm_compute; reflexivity|].
  unfold Q2R. simpl Qnum. simpl Qden.
  split; intros Hs; apply sameAngle_near in Hs; lra.
Qed.

(** C3.  A body with a pivot and [orbitalSpeed = s] has, after any [N]
    frames, the pivot rotation angle that [N] successive binary64 additions
    of [s * 0.5] to its initial angle give, each one rounded; a falsy [s]
    leaves the angle as it is. *)
Theorem pivot_rotation_adds_rounded_steps :
  forall (frames : list Frame) (objs : list Binary64.Entity) (i : nat)
         (obj : Binary64.Entity) (angle0 s : float),
    nth_error objs i = Some obj ->
    Binary64.pivot_rotation_y obj = Some angle0 ->
    Binary64.orbitalSpeed (Binary64.data obj) = Some s ->
    exists obj',
      nth_error (Binary64.run frames objs) i = Some obj' /\
      Binary64.pivot_rotation_y obj'
      = Some (if Binary64.truthy s
              then Nat.iter (length frames)
                     (fun angle => (angle + s * 0.5)%float) angle0
              else angle0).
Proof.
  intros frames objs i obj angle0 s Hi Hp Hs.
  exists (Nat.iter (length frames) Binary64.animateObject obj).
  split; [apply Binary64_run_nth, Hi|].
  induction (length frames) as [|n IH].
  - cbn [Nat.iter nat_rect]. rewrite Hp.
    destruct (Binary64.truthy s); reflexivity.
  - rewrite !Nat.iter_succ.
    rewrite Binary64_animateObject_pivot, IH, Binary64_iter_data, Hs.
    cbn [Binary64.truthy_prop Binary64.toNumber].
    destruct (Binary64.truthy s); reflexivity.
Qed.

Lemma pivot_rotation_adds_rounded_steps_witness :
  exists obj',
    nth_error (Binary64.run (frames60Hz 100 0)
                 (Binary64.createBodies Binary64.solarSystemData)) 3
    = Some obj' /\
    Binary64.pivot_rotation_y obj' = Some 0.74999999999999878%float.
Proof.
  exact (pivot_rotation_adds_rounded_steps (frames60Hz 100 0)
           (Binary64.createBodies Binary64.solarSystemData) 3
           (Binary64.createBody (Binary64.planet 0.015 0.02)) 0%float
           0.015%float eq_refl eq_refl eq_refl).
Defined.

(** A hundred frames of Earth's [orbitalSpeed], 0.015, from the angle 0
    leave the pivot at 0.7499999999999988, which is neither a hundred times
    the decimal 0.0075 nor a hundred times the binary64 product
    [0.015 * 0.5], also not up to whole turns. *)
Lemma hundred_orbit_steps_are_not_a_hundred_times_the_step :
  exists (obj' : Binary64.Entity) (angle step : Q),
    nth_error (Binary64.run (frames60Hz 100 0)
                 (Binary64.createBodies Binary64.solarSystemData)) 3
    = Some obj' /\
    Binary64.orbitalSpeed (Binary64.data obj') = Some 0.015%float /\
    Binary64.exact (0.015 * 0.5) = Some step /\
    option_map Binary64.exact (Binary64.pivot_rotation_y obj')
    = Some (Some angle) /\
    ~ sameAngle (Q2R angle) (0 + 100 * (0.015 * 0.5)) /\
    ~ sameAngle (Q2R angle) (0 + 100 * Q2R step).
Proof.
  exists (Nat.iter 100 Binary64.animateObject
            (Binary64.createBody (Binary64.planet 0.015 0.02))),
         (6755399441055733 # 9007199254740992)%Q,
         (8646911284551352 # 1152921504606846976)%Q.
  split; [apply (Binary64_run_nth (frames60Hz 100 0)); reflexivity|].
  split; [rewrite Binary64_iter_data; reflexivity|].
  split; [vm_compute; reflexivity|].
  split; [vm_compute; reflexivity|].
  unfold Q2R. simpl Qnum. simpl Qden.
  split; intros Hs; apply sameAngle_near in Hs; lra.
Qed.

(** C6.  The mesh of a central body ([isSun]) stays at the scene origin,
    in local and in world coordinates, after any number of frames. *)
Theorem central_body_stays_at_origin :
  forall (ds : list Descriptor) (frames : list Frame) (i : nat)
         (d : Descriptor),
    nth_error ds i = Some d ->
    isSun d = true ->
    let at_origin (obj : Entity) :=
      data obj = d /\
      Object3D.position (mesh obj) = Vector3.new /\
      worldPosition obj = Vector3.new in
    (forall s : Script.State,
        Script.celestialObjects s = Script.createBodies ds ->
        exists obj,
          nth_error (Script.celestialObjects (Script.run frames s)) i
          = Some obj /\ at_origin obj) /\
    (forall s : Extended.State,
        Extended.celestialObjects s = Extended.createBodies ds ->
        exists obj,
          nth_error (Extended.celestialObjects (Extended.run frames s)) i
          = Some obj /\ at_origin obj).
Proof.
  intros ds frames i d Hi Hsun at_origin.
  assert (Hstay : forall obj,
             data obj = d -> pivot obj = None ->
             Object3D.position (mesh obj) = Vector3.new ->
             at_origin (ticks (length frames) obj)).
  { intros obj Hd Hp Hm. split; [rewrite ticks_data; exact Hd|].
    assert (Hm' : Object3D.position (mesh (ticks (length frames) obj))
                  = Vector3.new)
      by (rewrite ticks_mesh_position; exact Hm).
    split; [exact Hm'|].
    apply worldPosition_no_pivot; [apply ticks_no_pivot, Hp | exact Hm']. }
  split; intros s Hs.
  - exists (ticks (length frames) (Script.createBody d)). split.
    + apply Script_run_nth. rewrite Hs. apply Script_createBodies_nth, Hi.
    + destruct (Script_createBody_sun d Hsun) as [Hp Hm].
      apply Hstay; [apply Script_createBody_data | exact Hp | exact Hm].
  - exists (ticks (length frames) (Extended.createBody d)). split.
    + apply Extended_run_nth.
      * rewrite Hs. apply Extended_createBodies_nth, Hi.
      * apply Extended_createBody_isTheo.
    + destruct (Extended_createBody_sun d Hsun) as [Hp Hm].
      apply Hstay; [apply Extended_createBody_data | exact Hp | exact Hm].
Qed.

Lemma central_body_stays_at_origin_witness :
  nth_error solarSystemData 0 = Some sun /\
  isSun sun = true /\
  exists obj,
    nth_error (Script.celestialObjects
                 (Script.run (frames60Hz 5 0)
                    (Script.startup window800x600 controlsAtRest))) 0
    = Some obj /\
    data obj = sun /\
    Object3D.position (mesh obj) = Vector3.new /\
    worldPosition obj = Vector3.new.
Proof.
  split; [reflexivity|]. split; [reflexivity|].
  exact (proj1 (central_body_stays_at_origin solarSystemData (frames60Hz 5 0)
                  0 sun eq_refl eq_refl)
               (Script.startup window800x600 controlsAtRest) eq_refl).
Defined.

(** C10.  The mesh of a non-central body keeps the local position
    [(orbitalRadius, 0, 0)] under its pivot after any number of frames: the
    stepper writes rotation angles only. *)
Theorem orbit_radius_invariant :
  forall (ds : list Descriptor) (frames : list Frame) (i : nat)
         (d : Descriptor),
    nth_error ds i = Some d ->
    isSun d = false ->
    let on_radius (obj : Entity) :=
      data obj = d /\
      (exists p, pivot obj = Some p) /\
      Object3D.position (mesh obj)
      = Vector3.mk (toNumber (orbitalRadius d)) (Fin 0) (Fin 0) in
    (forall s : Script.State,
        Script.celestialObjects s = Script.createBodies ds ->
        exists obj,
          nth_error (Script.celestialObjects (Script.run frames s)) i
          = Some obj /\ on_radius obj) /\
    (forall s : Extended.State,
        Extended.celestialObjects s = Extended.createBodies ds ->
        exists obj,
          nth_error (Extended.celestialObjects (Extended.run frames s)) i
          = Some obj /\ on_radius obj).
Proof.
  intros ds frames i d Hi Hsun on_radius.
  assert (Hkeep : forall obj,
             data obj = d -> pivot obj = Some Object3D.new ->
             Object3D.position (mesh obj)
             = Vector3.mk (toNumber (orbitalRadius d)) (Fin 0) (Fin 0) ->
             on_radius (ticks (length frames) obj)).
  { intros obj Hd Hp Hm. split; [rewrite ticks_data; exact Hd|]. split.
    - clear Hm. induction (length frames) as [|n (p & Hn)].
      + exists Object3D.new. exact Hp.
      + change (ticks (S n) obj) with (Script.animateObject (ticks n obj)).
        rewrite (animateObject_pivot _ _ Hn). eexists. reflexivity.
    - rewrite ticks_mesh_position. exact Hm. }
  split; intros s Hs.
  - exists (ticks (length frames) (Script.createBody d)). split.
    + apply Script_run_nth. rewrite Hs. apply Script_createBodies_nth, Hi.
    + destruct (Script_createBody_planet d Hsun) as [Hp Hm].
      apply Hkeep; [apply Script_createBody_data | exact Hp | exact Hm].
  - exists (ticks (length frames) (Extended.createBody d)). split.
    + apply Extended_run_nth.
      * rewrite Hs. apply Extended_createBodies_nth, Hi.
      * apply Extended_createBody_isTheo.
    + destruct (Extended_createBody_planet d Hsun) as [Hp Hm].
      apply Hkeep; [apply Extended_createBody_data | exact Hp | exact Hm].
Qed.

Lemma orbit_radius_invariant_witness :
  nth_error solarSystemData 3 = Some earth /\
  isSun earth = false /\
  exists obj,
    nth_error (Extended.celestialObjects
                 (Extended.run (frames60Hz 7 0)
                    (Extended.startup window800x600 controlsAtRest))) 3
    = Some obj /\
    data obj = earth /\
    (exists p, pivot obj = Some p) /\
    Object3D.position (mesh obj) = Vector3.mk (Fin 120) (Fin 0) (Fin 0).
Proof.
  split; [reflexivity|]. split; [reflexivity|].
  exact (proj2 (orbit_radius_invariant solarSystemData (frames60Hz 7 0)
                  3 earth eq_refl eq_refl)
               (Extended.startup window800x600 controlsAtRest) eq_refl).
Defined.

(** C5 as the specification words it fails: both builders construct a
    record for a planet of negative radius and for a planet without
    [orbitalRadius]; neither ends in [InvalidDescriptor]. *)
Lemma builder_constructs_malformed_bodies :
  malformed negativeRadiusBody /\
  malformed unplacedBody /\
  Script.build [negativeRadiusBody; unplacedBody]
  <> inl InvalidDescriptor /\
  Extended.build [negativeRadiusBody; unplacedBody]
  <> inl InvalidDescriptor /\
  Script.build [negativeRadiusBody; unplacedBody]
  = inr [Script.createBody negativeRadiusBody;
         Script.createBody unplacedBody] /\
  Extended.build [negativeRadiusBody; unplacedBody]
  = inr [Extended.createBody negativeRadiusBody;
         Extended.createBody unplacedBody; Extended.theo] /\
  Object3D.position (mesh (Script.createBody unplacedBody))
  = Vector3.mk NaN (Fin 0) (Fin 0).
Proof.
  split.
  { left. exists (-1). split; [reflexivity | lra]. }
  split.
  { right. split; reflexivity. }
  split; [discriminate|]. split; [discriminate|].
  split; [reflexivity|]. split; reflexivity.
Qed.

(** C5 (as amended).  The builders validate nothing: for every list of
    descriptors, malformed ones included, they complete and yield one
    record per descriptor, in order (followed by Theo in the richer
    variant); they never end in [InvalidDescriptor]. *)
Theorem builder_accepts_every_descriptor :
  forall ds : list Descriptor,
    (exists objs,
        Script.build ds = inr objs /\ map data objs = ds) /\
    (exists objs,
        Extended.build ds = inr objs /\
        map data objs = ds ++ [data Extended.theo]).
Proof.
  intros ds. split.
  - exists (Script.createBodies ds). split; [reflexivity|].
    unfold Script.createBodies. rewrite map_map.
    rewrite (map_ext _ (fun d => d) Script_createBody_data). apply map_id.
  - exists (Extended.createBodies ds). split; [reflexivity|].
    unfold Extended.createBodies. rewrite map_app, map_map.
    rewrite (map_ext _ (fun d => d) Extended_createBody_data), map_id.
    reflexivity.
Qed.

(** ** Theo *)

Lemma lookAt_position (ps : list Object3D.t) (isCamera : bool)
    (target : Vector3.t) (o : Object3D.t) :
  Object3D.position (Object3D.lookAt ps isCamera target o)
  = Object3D.position o.
Proof. reflexivity. Qed.

(** Below a parent, the world position of a node reads the node's local
    position only: its own orientation does not enter. *)
Lemma getWorldPosition_below (parent : Object3D.t)
    (ancestors : list Object3D.t) (o : Object3D.t) :
  let a := Object3D.matrixWorld ancestors parent in
  let p := Object3D.position o in
  Object3D.getWorldPosition (parent :: ancestors) o
  = Vector3.mk
      (Matrix4.te0 a * Vector3.x p + Matrix4.te4 a * Vector3.y p
       + Matrix4.te8 a * Vector3.z p + Matrix4.te12 a * Fin 1)%js
      (Matrix4.te1 a * Vector3.x p + Matrix4.te5 a * Vector3.y p
       + Matrix4.te9 a * Vector3.z p + Matrix4.te13 a * Fin 1)%js
      (Matrix4.te2 a * Vector3.x p + Matrix4.te6 a * Vector3.y p
       + Matrix4.te10 a * Vector3.z p + Matrix4.te14 a * Fin 1)%js.
Proof.
  intros a p. unfold Object3D.getWorldPosition.
  cbn [Object3D.matrixWorld]. rewrite position_multiplyMatrices.
  reflexivity.
Qed.

(** [lookAt] below a parent overwrites the orientation: two nodes that
    agree on position, scale and up vector end up equal. *)
Lemma lookAt_overwrites (parent : Object3D.t) (ancestors : list Object3D.t)
    (isCamera : bool) (target : Vector3.t) (o1 o2 : Object3D.t) :
  Object3D.position o1 = Object3D.position o2 ->
  Object3D.scale o1 = Object3D.scale o2 ->
  Object3D.up o1 = Object3D.up o2 ->
  Object3D.lookAt (parent :: ancestors) isCamera target o1
  = Object3D.lookAt (parent :: ancestors) isCamera target o2.
Proof.
  intros Hpos Hsc Hup. unfold Object3D.lookAt, Object3D.set_quaternion.
  rewrite !getWorldPosition_below. cbv zeta. rewrite Hpos, Hsc, Hup.
  reflexivity.
Qed.

Lemma theoPosition_10 :
  Extended.theoPosition (Fin 10)
  = Vector3.mk (Fin (cos 1 * 300)) (Fin (sin 1 * 200 * sin (PI / 6)))
               (Fin (sin 1 * 200 * cos (PI / 6))).
Proof.
  unfold Extended.theoPosition, Math.PI. rewrite jdiv_Fin by lra. simpl.
  replace (10 * 0.1) with 1 by lra. reflexivity.
Qed.

(** C7.  Whatever the state before, a tick at [elapsedTime = 10] puts the
    time-parameterized entity at x = cos 1 * 300 (162.1), y = sin 1 * 200 *
    sin (PI/6) (84.1), z = sin 1 * 200 * cos (PI/6) (145.7): the position is
    a function of [elapsedTime] alone. *)
Theorem theo_position_at_10s :
  forall (s : Extended.State) (frame : Frame) (i : nat) (obj : Entity),
    nth_error (Extended.celestialObjects s) i = Some obj ->
    isTheo obj = true ->
    elapsedTime frame = Fin 10 ->
    (exists obj',
        nth_error (Extended.celestialObjects (Extended.animate frame s)) i
        = Some obj' /\
        Object3D.position (mesh obj')
        = Vector3.mk (Fin (cos 1 * 300)) (Fin (sin 1 * 200 * sin (PI / 6)))
                     (Fin (sin 1 * 200 * cos (PI / 6)))) /\
    162.05 < cos 1 * 300 < 162.15 /\
    84.05 < sin 1 * 200 * sin (PI / 6) < 84.15 /\
    145.65 < sin 1 * 200 * cos (PI / 6) < 145.75.
Proof.
  intros s frame i obj Hi Hth Ht. split.
  - exists (Extended.animateObject (Extended.camera s) (elapsedTime frame) obj).
    split.
    + simpl. apply map_nth_error, Hi.
    + unfold Extended.animateObject. rewrite Hth, Ht.
      cbn [mesh with_mesh]. rewrite lookAt_position.
      exact theoPosition_10.
  - rewrite sin_PI6, cos_PI6.
    pose proof cos_1_bounds. pose proof sin_1_bounds.
    pose proof sqrt_3_bounds. repeat split; nra.
Qed.

Lemma theo_position_at_10s_witness :
  nth_error (Extended.celestialObjects
               (Extended.startup window800x600 controlsAtRest)) 9
  = Some Extended.theo /\
  isTheo Extended.theo = true /\
  exists obj',
    nth_error (Extended.celestialObjects
                 (Extended.animate
                    {| delta := Fin (1 / 60); elapsedTime := Fin 10 |}
                    (Extended.startup window800x600 controlsAtRest))) 9
    = Some obj' /\
    Object3D.position (mesh obj')
    = Vector3.mk (Fin (cos 1 * 300)) (Fin (sin 1 * 200 * sin (PI / 6)))
                 (Fin (sin 1 * 200 * cos (PI / 6))).
Proof.
  split; [reflexivity|]. split; [reflexivity|].
  exact (proj1 (theo_position_at_10s
                  (Extended.startup window800x600 controlsAtRest)
                  {| delta := Fin (1 / 60); elapsedTime := Fin 10 |}
                  9 Extended.theo eq_refl eq_refl eq_refl)).
Defined.

(** C8.  The record the billboarded entity holds at the end of a tick does
    not depend on the orientation (nor on the position) its mesh had
    before: under the same camera and clock reading, any two prior meshes
    of equal scale and up vector give the same record, orientation
    included. *)
Theorem billboard_orientation_recomputed :
  forall (camera : Camera.t) (t : number) (obj : Entity)
         (m1 m2 : Object3D.t),
    isTheo obj = true ->
    Object3D.scale m1 = Object3D.scale m2 ->
    Object3D.up m1 = Object3D.up m2 ->
    Extended.animateObject camera t (with_mesh obj m1)
    = Extended.animateObject camera t (with_mesh obj m2).
Proof.
  intros camera t obj m1 m2 Hth Hsc Hup.
  unfold Extended.animateObject. cbn [isTheo with_mesh mesh]. rewrite Hth.
  unfold with_mesh. cbn [pivot data isTheo label ringMesh]. f_equal.
  unfold parents. cbn [pivot].
  destruct (pivot obj) as [p|]; apply lookAt_overwrites;
    [reflexivity | exact Hsc | exact Hup | reflexivity | exact Hsc | exact Hup].
Qed.

Lemma billboard_orientation_recomputed_witness :
  isTheo Extended.theo = true /\
  Extended.animateObject (createCamera window800x600) (Fin 10)
    (with_mesh Extended.theo
       (Object3D.set_rotation_z (Fin 1) Object3D.new))
  = Extended.animateObject (createCamera window800x600) (Fin 10)
      (with_mesh Extended.theo
         (Object3D.set_rotation_x (Fin 2) Object3D.new)).
Proof.
  split; [reflexivity|].
  exact (billboard_orientation_recomputed (createCamera window800x600)
           (Fin 10) Extended.theo
           (Object3D.set_rotation_z (Fin 1) Object3D.new)
           (Object3D.set_rotation_x (Fin 2) Object3D.new)
           eq_refl eq_refl eq_refl).
Defined.

(** ** Camera focus and resize *)

Lemma updated_noPanPending (c : OrbitControls.t) :
  noPanPending c -> OrbitControls.updated c = c.
Proof.
  intros Hc. unfold OrbitControls.updated. rewrite Hc. destruct c. reflexivity.
Qed.

Lemma set_target_noPanPending (v : Vector3.t) (c : OrbitControls.t) :
  noPanPending c -> noPanPending (OrbitControls.set_target v c).
Proof. intros Hc w. exact (Hc w). Qed.

Lemma Extended_run_controls (frames : list Frame) :
  forall s : Extended.State,
    noPanPending (Extended.controls s) ->
    Extended.controls (Extended.run frames s) = Extended.controls s.
Proof.
  induction frames as [|frame frames IH]; intros s Hs; [reflexivity|].
  change (Extended.run (frame :: frames) s)
    with (Extended.run frames (Extended.animate frame s)).
  assert (Hc : Extended.controls (Extended.animate frame s)
               = Extended.controls s)
    by (apply updated_noPanPending, Hs).
  rewrite IH; [exact Hc | rewrite Hc; exact Hs].
Qed.



(** The captured target is a copy, not a live view: one frame after the
    focus on Earth, Earth's mesh has left the target. *)
Lemma focus_target_is_a_snapshot :
  let s := Extended.focusOnObject 3
             (Extended.startup window800x600 controlsAtRest) in
  exists obj,
    nth_error (Extended.celestialObjects (Extended.run (frames60Hz 1 0) s)) 3
    = Some obj /\
    worldPosition obj
    <> OrbitControls.target
         (Extended.controls (Extended.run (frames60Hz 1 0) s)).
Proof.
  intros s. exists (ticks 1 (Extended.createBody earth)). split.
  - apply (Extended_run_nth (frames60Hz 1 0)); reflexivity.
  - rewrite Extended_run_controls by (intros v; reflexivity).
    destruct (ticks_earth 1 (Extended.createBody earth))
      as (p1 & _ & _ & H1); [reflexivity | reflexivity | reflexivity |].
    destruct (ticks_earth 0 (Extended.createBody earth))
      as (p0 & _ & _ & H0); [reflexivity | reflexivity | reflexivity |].
    rewrite H1. change (ticks 0 (Extended.createBody earth))
      with (Extended.createBody earth) in H0.
    unfold s, Extended.focusOnObject.
    change (nth_error (Extended.celestialObjects
                         (Extended.startup window800x600 controlsAtRest)) 3)
      with (Some (Extended.createBody earth)).
    cbn [Extended.controls OrbitControls.target OrbitControls.set_target].
    rewrite H0. intros Heq. injection Heq as _ Hz.
    simpl INR in Hz. replace (0 * 0.0075) with 0 in Hz by lra.
    rewrite sin_0 in Hz.
    assert (0 < sin (1 * 0.0075)).
    { apply sin_gt_0; [lra|]. pose proof PI2_1. lra. }
    lra.
Qed.

(** C9.  A resize to [(W, H)] sets the camera aspect to [W / H] and the
    size of the renderer (and, in the richer variant, of the label
    renderer) to [(W, H)], and leaves the bodies, hence every pivot angle
    and self-rotation angle, as they were. *)
Theorem resize_updates_aspect_and_viewports :
  forall window : Window,
    (forall s : Extended.State,
        let s' := Extended.resize window s in
        Camera.aspect (Extended.camera s')
        = (innerWidth window / innerHeight window)%js /\
        WebGLRenderer.width (Extended.renderer s') = innerWidth window /\
        WebGLRenderer.height (Extended.renderer s') = innerHeight window /\
        CSS2DRenderer.width (Extended.labelRenderer s') = innerWidth window /\
        CSS2DRenderer.height (Extended.labelRenderer s')
        = innerHeight window /\
        Extended.celestialObjects s' = Extended.celestialObjects s) /\
    (forall s : Script.State,
        let s' := Script.resize window s in
        Camera.aspect (Script.camera s')
        = (innerWidth window / innerHeight window)%js /\
        WebGLRenderer.width (Script.renderer s') = innerWidth window /\
        WebGLRenderer.height (Script.renderer s') = innerHeight window /\
        Script.celestialObjects s' = Script.celestialObjects s).
Proof.
  intros window. split; intros s s'; repeat (split; try reflexivity).
Qed.

(** * Further properties of the scripts *)

(** ** Angles after any number of frames *)

Lemma animateObject_mesh (obj : Entity) :
  mesh (Script.animateObject obj)
  = if truthy_prop (rotationSpeed (data obj))
    then Object3D.set_rotation_y
           (Euler.y (Object3D.rotation (mesh obj))
            + toNumber (rotationSpeed (data obj)))%js (mesh obj)
    else mesh obj.
Proof.
  unfold Script.animateObject.
  destruct (truthy_prop (rotationSpeed (data obj))); simpl;
    destruct (pivot obj); simpl;
    destruct (truthy_prop (orbitalSpeed (data obj))); reflexivity.
Qed.

Lemma spunY_new : spunY 0 Object3D.new.
Proof.
  unfold spunY. simpl. split; [reflexivity|]. split; [reflexivity|].
  replace (0 / 2) with 0 by lra. rewrite sin_0, cos_0. reflexivity.
Qed.

Lemma spunY_set (phi a : R) (o : Object3D.t) :
  spunY phi o -> spunY a (Object3D.set_rotation_y (Fin a) o).
Proof.
  intros (Hsc & Hrot & _).
  unfold spunY, Object3D.set_rotation_y, Object3D.set_rotation.
  rewrite Hrot. cbn. rewrite setFromEuler_Y. auto.
Qed.

Lemma spunY_set_position (phi : R) (p : Vector3.t) (o : Object3D.t) :
  spunY phi o -> spunY phi (Object3D.set_position p o).
Proof. intros H. exact H. Qed.

Lemma ticks_mesh_spunY (n : nat) (obj : Entity) (phi : R) :
  spunY phi (mesh obj) ->
  spunY (phi + INR n * spinStep (data obj)) (mesh (ticks n obj)).
Proof.
  intros H0. induction n as [|n IH].
  - simpl. now replace (phi + 0 * spinStep (data obj)) with phi by lra.
  - change (ticks (S n) obj) with (Script.animateObject (ticks n obj)).
    rewrite animateObject_mesh, ticks_data, S_INR. unfold spinStep in *.
    destruct (rotationSpeed (data obj)) as [r|]; cbn [truthy_prop].
    + destruct (truthy (Fin r)) eqn:Ht.
      * destruct IH as (Hsc & Hrot & Hq). rewrite Hrot. simpl.
        replace (phi + (INR n + 1) * r) with (phi + INR n * r + r) by lra.
        apply (spunY_set (phi + INR n * r)). repeat split; assumption.
      * assert (r = 0) by (apply truthy_prop_false; exact Ht). subst r.
        replace (phi + (INR n + 1) * 0) with (phi + INR n * 0) by lra.
        exact IH.
    + replace (phi + (INR n + 1) * 0) with (phi + INR n * 0) by lra.
      exact IH.
Qed.

Lemma ticks_pivot_turnedY_step (n : nat) (obj : Entity) (p : Object3D.t)
    (theta : R) :
  pivot obj = Some p ->
  turnedY theta p ->
  exists p',
    pivot (ticks n obj) = Some p' /\
    turnedY (theta + INR n * orbitStep (data obj)) p'.
Proof.
  intros Hp Ht. unfold orbitStep.
  destruct (orbitalSpeed (data obj)) as [s|] eqn:Hs.
  - exact (ticks_pivot_turnedY n obj p s theta Hp Hs Ht).
  - exists p. split.
    + induction n as [|n IH]; [exact Hp|].
      change (ticks (S n) obj) with (Script.animateObject (ticks n obj)).
      rewrite (animateObject_pivot _ _ IH), ticks_data, Hs. reflexivity.
    + now replace (theta + INR n * 0) with theta by lra.
Qed.

(** ** Y rotations as matrices *)

Lemma identity_yaw : Matrix4.identity = yawMatrix 0 0 0 0.
Proof.
  unfold yawMatrix. rewrite sin_0, cos_0, Ropp_0. reflexivity.
Qed.

Lemma yaw_multiply (alpha beta x y z a b c : R) :
  Matrix4.multiplyMatrices (yawMatrix alpha x y z) (yawMatrix beta a b c)
  = yawMatrix (alpha + beta)
      (x + (a * cos alpha + c * sin alpha)) (y + b)
      (z + (c * cos alpha - a * sin alpha)).
Proof.
  unfold yawMatrix. rewrite cos_plus, sin_plus.
  apply Matrix4_ext; simpl; f_equal; ring.
Qed.

Lemma matrix_spunY (phi a b c : R) (o : Object3D.t) :
  spunY phi o ->
  Object3D.position o = Vector3.mk (Fin a) (Fin b) (Fin c) ->
  Object3D.matrix o = yawMatrix phi a b c.
Proof.
  intros (Hsc & _ & Hq) Hpos.
  unfold Object3D.matrix, yawMatrix. rewrite Hpos, Hsc, Hq.
  replace (cos phi) with (cos (2 * (phi / 2))) by (f_equal; lra).
  replace (sin phi) with (sin (2 * (phi / 2))) by (f_equal; lra).
  rewrite cos_2a_sin, sin_2a.
  apply Matrix4_ext; simpl; f_equal; ring.
Qed.

Lemma turnedY_spunY (theta : R) (p : Object3D.t) :
  turnedY theta p ->
  spunY theta p /\ Object3D.position p = Vector3.mk (Fin 0) (Fin 0) (Fin 0).
Proof.
  intros (Hpos & Hsc & Hrot & Hq). split; [|exact Hpos].
  split; [exact Hsc|]. split; assumption.
Qed.

(** The world matrix of a mesh spun to [phi] at local [(a, b, c)], below a
    pivot turned to [theta], or directly below the scene. *)
Lemma mesh_matrixWorld_below_pivot (obj : Entity) (p : Object3D.t)
    (theta phi a b c : R) :
  pivot obj = Some p ->
  turnedY theta p ->
  spunY phi (mesh obj) ->
  Object3D.position (mesh obj) = Vector3.mk (Fin a) (Fin b) (Fin c) ->
  Object3D.matrixWorld (parents obj) (mesh obj)
  = yawMatrix (theta + phi)
      (a * cos theta + c * sin theta) b (c * cos theta - a * sin theta).
Proof.
  intros Hp Ht Hm Hpos. unfold parents. rewrite Hp.
  cbn [Object3D.matrixWorld]. rewrite scene_matrix, identity_yaw.
  destruct (turnedY_spunY _ _ Ht) as [Hs Hp0].
  rewrite (matrix_spunY _ _ _ _ _ Hs Hp0), (matrix_spunY _ _ _ _ _ Hm Hpos).
  rewrite yaw_multiply. replace (0 + theta) with theta by lra.
  rewrite yaw_multiply, sin_0, cos_0. f_equal; ring.
Qed.

Lemma mesh_matrixWorld_below_scene (obj : Entity) (phi a b c : R) :
  pivot obj = None ->
  spunY phi (mesh obj) ->
  Object3D.position (mesh obj) = Vector3.mk (Fin a) (Fin b) (Fin c) ->
  Object3D.matrixWorld (parents obj) (mesh obj) = yawMatrix phi a b c.
Proof.
  intros Hp Hm Hpos. unfold parents. rewrite Hp.
  cbn [Object3D.matrixWorld]. rewrite scene_matrix, identity_yaw.
  rewrite (matrix_spunY _ _ _ _ _ Hm Hpos), yaw_multiply, sin_0, cos_0.
  f_equal; ring.
Qed.

(** ** The built records, before the first frame *)

Lemma createBody_mesh_agree (d : Descriptor) :
  mesh (Extended.createBody d) = mesh (Script.createBody d) /\
  pivot (Extended.createBody d) = pivot (Script.createBody d) /\
  ringMesh (Extended.createBody d) = ringMesh (Script.createBody d).
Proof.
  unfold Extended.createBody, Script.createBody.
  destruct (isSun d); repeat split; reflexivity.
Qed.

Lemma Script_createBody_spunY (d : Descriptor) :
  spunY 0 (mesh (Script.createBody d)).
Proof.
  unfold Script.createBody. destruct (isSun d); cbn [mesh]; apply spunY_new.
Qed.


(** A property of the [i]-th built record after the frames, in both
    variants at once. *)
Lemma built_body_after_frames (P : Entity -> Prop) (ds : list Descriptor)
    (frames : list Frame) (i : nat) (d : Descriptor) :
  nth_error ds i = Some d ->
  P (ticks (length frames) (Script.createBody d)) ->
  P (ticks (length frames) (Extended.createBody d)) ->
  (forall s : Script.State,
      Script.celestialObjects s = Script.createBodies ds ->
      exists obj,
        nth_error (Script.celestialObjects (Script.run frames s)) i
        = Some obj /\ P obj) /\
  (forall s : Extended.State,
      Extended.celestialObjects s = Extended.createBodies ds ->
      exists obj,
        nth_error (Extended.celestialObjects (Extended.run frames s)) i
        = Some obj /\ P obj).
Proof.
  intros Hi HS HE. split; intros s Hs.
  - exists (ticks (length frames) (Script.createBody d)).
    split; [|exact HS].
    apply Script_run_nth. rewrite Hs. apply Script_createBodies_nth, Hi.
  - exists (ticks (length frames) (Extended.createBody d)).
    split; [|exact HE].
    apply Extended_run_nth.
    + rewrite Hs. apply Extended_createBodies_nth, Hi.
    + apply Extended_createBody_isTheo.
Qed.

(** The world matrix of a planet's mesh after [n] frames. *)
Lemma ticks_planet_matrixWorld (n : nat) (obj : Entity) (r : R) :
  pivot obj = Some Object3D.new ->
  spunY 0 (mesh obj) ->
  Object3D.position (mesh obj) = Vector3.mk (Fin r) (Fin 0) (Fin 0) ->
  let theta := INR n * orbitStep (data obj) in
  Object3D.matrixWorld (parents (ticks n obj)) (mesh (ticks n obj))
  = yawMatrix (theta + INR n * spinStep (data obj))
      (r * cos theta) 0 (- (r * sin theta)).
Proof.
  intros Hp Hm Hpos theta.
  destruct (ticks_pivot_turnedY_step n obj _ 0 Hp turnedY_new)
    as (p' & Hp' & Ht).
  replace (0 + INR n * orbitStep (data obj)) with theta in Ht
    by (unfold theta; lra).
  pose proof (ticks_mesh_spunY n obj 0 Hm) as Hm'.
  replace (0 + INR n * spinStep (data obj))
    with (INR n * spinStep (data obj)) in Hm' by lra.
  rewrite (mesh_matrixWorld_below_pivot _ p' theta _ r 0 0 Hp' Ht Hm').
  - f_equal; ring.
  - rewrite ticks_mesh_position. exact Hpos.
Qed.

(** A built planet after [n] frames: its pivot is at the origin, turned
    about Y only, and its mesh, spun about Y only, is where the builder
    put it. *)
Lemma ticks_planet_state (n : nat) (obj : Entity) (r : R) :
  pivot obj = Some Object3D.new ->
  spunY 0 (mesh obj) ->
  Object3D.position (mesh obj) = Vector3.mk (Fin r) (Fin 0) (Fin 0) ->
  exists p theta phi,
    pivot (ticks n obj) = Some p /\
    turnedY theta p /\
    spunY phi (mesh (ticks n obj)) /\
    Object3D.position (mesh (ticks n obj))
    = Vector3.mk (Fin r) (Fin 0) (Fin 0).
Proof.
  intros Hp Hm Hpos.
  destruct (ticks_pivot_turnedY_step n obj _ 0 Hp turnedY_new)
    as (p' & Hp' & Ht).
  exists p', (0 + INR n * orbitStep (data obj)),
         (0 + INR n * spinStep (data obj)).
  split; [exact Hp'|]. split; [exact Ht|].
  split; [exact (ticks_mesh_spunY n obj 0 Hm)|].
  rewrite ticks_mesh_position. exact Hpos.
Qed.

Lemma Extended_createBody_spunY (d : Descriptor) :
  spunY 0 (mesh (Extended.createBody d)).
Proof.
  destruct (createBody_mesh_agree d) as (Hmesh & _ & _).
  rewrite Hmesh. apply Script_createBody_spunY.
Qed.

(** X1.  At every frame a built non-central body of orbital radius [r] is
    on the circle of radius [r] about the origin, in the plane [y = 0], at
    the angle its pivot stores: the stepper keeps the pivot at the origin
    and turned about Y only, to some angle [theta], keeps the mesh at the
    local position [(r, 0, 0)], and the world position of the mesh is
    [(r cos theta, 0, - r sin theta)]. *)
Theorem planet_trajectory :
  forall (ds : list Descriptor) (frames : list Frame) (i : nat)
         (d : Descriptor) (r : R),
    nth_error ds i = Some d ->
    isSun d = false ->
    orbitalRadius d = Some r ->
    let there (obj : Entity) :=
      exists (p : Object3D.t) (theta : R),
        pivot obj = Some p /\
        turnedY theta p /\
        Object3D.position (mesh obj) = Vector3.mk (Fin r) (Fin 0) (Fin 0) /\
        worldPosition obj
        = Vector3.mk (Fin (r * cos theta)) (Fin 0)
                     (Fin (- (r * sin theta))) in
    (forall s : Script.State,
        Script.celestialObjects s = Script.createBodies ds ->
        exists obj,
          nth_error (Script.celestialObjects (Script.run frames s)) i
          = Some obj /\ there obj) /\
    (forall s : Extended.State,
        Extended.celestialObjects s = Extended.createBodies ds ->
        exists obj,
          nth_error (Extended.celestialObjects (Extended.run frames s)) i
          = Some obj /\ there obj).
Proof.
  intros ds frames i d r Hi Hsun Hr there.
  assert (Hthere : forall obj,
             pivot obj = Some Object3D.new ->
             spunY 0 (mesh obj) ->
             Object3D.position (mesh obj) = Vector3.mk (Fin r) (Fin 0) (Fin 0) ->
             there (ticks (length frames) obj)).
  { intros obj Hp Hm Hpos.
    destruct (ticks_planet_state (length frames) obj r Hp Hm Hpos)
      as (p & theta & phi & Hp' & Ht & _ & Hpos').
    exists p, theta. split; [exact Hp'|]. split; [exact Ht|].
    split; [exact Hpos'|].
    exact (worldPosition_turnedY _ p r theta Hp' Ht Hpos'). }
  apply built_body_after_frames with (d := d); [exact Hi | |].
  - destruct (Script_createBody_planet d Hsun) as [Hp Hm]. rewrite Hr in Hm.
    apply Hthere; [exact Hp | apply Script_createBody_spunY | exact Hm].
  - destruct (Extended_createBody_planet d Hsun) as [Hp Hm]. rewrite Hr in Hm.
    apply Hthere; [exact Hp | apply Extended_createBody_spunY | exact Hm].
Qed.

Lemma planet_trajectory_witness :
  nth_error solarSystemData 3 = Some earth /\
  isSun earth = false /\
  orbitalRadius earth = Some 120 /\
  exists obj,
    nth_error (Script.celestialObjects
                 (Script.run (frames60Hz 40 0)
                    (Script.startup window800x600 controlsAtRest))) 3
    = Some obj /\
    exists (p : Object3D.t) (theta : R),
      pivot obj = Some p /\
      turnedY theta p /\
      Object3D.position (mesh obj) = Vector3.mk (Fin 120) (Fin 0) (Fin 0) /\
      worldPosition obj
      = Vector3.mk (Fin (120 * cos theta)) (Fin 0)
                   (Fin (- (120 * sin theta))).
Proof.
  split; [reflexivity|]. split; [reflexivity|]. split; [reflexivity|].
  exact (proj1 (planet_trajectory solarSystemData (frames60Hz 40 0) 3 earth
                  120 eq_refl eq_refl eq_refl)
               (Script.startup window800x600 controlsAtRest) eq_refl).
Defined.

(** ** The two variants move the bodies alike *)

Lemma animateObject_congr (o1 o2 : Entity) :
  mesh o1 = mesh o2 -> pivot o1 = pivot o2 -> data o1 = data o2 ->
  mesh (Script.animateObject o1) = mesh (Script.animateObject o2) /\
  pivot (Script.animateObject o1) = pivot (Script.animateObject o2) /\
  data (Script.animateObject o1) = data (Script.animateObject o2).
Proof.
  intros Hm Hp Hd. rewrite !animateObject_mesh, !animateObject_data.
  rewrite Hm, Hd. split; [reflexivity|]. split; [|reflexivity].
  destruct (pivot o2) as [p|] eqn:Hp2.
  - rewrite (animateObject_pivot o1 p Hp), (animateObject_pivot o2 p Hp2).
    rewrite Hd. reflexivity.
  - rewrite (animateObject_no_pivot o1 Hp), (animateObject_no_pivot o2 Hp2).
    reflexivity.
Qed.

Lemma ticks_congr (n : nat) (o1 o2 : Entity) :
  mesh o1 = mesh o2 -> pivot o1 = pivot o2 -> data o1 = data o2 ->
  mesh (ticks n o1) = mesh (ticks n o2) /\
  pivot (ticks n o1) = pivot (ticks n o2) /\
  data (ticks n o1) = data (ticks n o2).
Proof.
  intros Hm Hp Hd. induction n as [|n (IHm & IHp & IHd)].
  - split; [exact Hm|]. split; assumption.
  - change (ticks (S n) o1) with (Script.animateObject (ticks n o1)).
    change (ticks (S n) o2) with (Script.animateObject (ticks n o2)).
    apply animateObject_congr; assumption.
Qed.

Lemma ticks_ringMesh (n : nat) (obj : Entity) :
  ringMesh (ticks n obj) = ringMesh obj /\ label (ticks n obj) = label obj.
Proof.
  induction n as [|n [IHr IHl]]; [split; reflexivity|].
  change (ticks (S n) obj) with (Script.animateObject (ticks n obj)).
  rewrite <- IHr, <- IHl. generalize (ticks n obj). intros o.
  unfold Script.animateObject.
  destruct (truthy_prop (rotationSpeed (data o))); simpl;
    destruct (pivot o); simpl;
    destruct (truthy_prop (orbitalSpeed (data o))); split; reflexivity.
Qed.

(** X2.  Built from the same descriptors, [script.js] and the richer
    variant hold the same mesh, pivot and ring for a body after the same
    number of frames, whatever the clock readings and the camera did: the
    labels, the focus and Theo do not touch the motion of the bodies. *)
Theorem variants_move_bodies_alike :
  forall (ds : list Descriptor) (frames1 frames2 : list Frame) (i : nat)
         (d : Descriptor) (s1 : Script.State) (s2 : Extended.State),
    nth_error ds i = Some d ->
    length frames1 = length frames2 ->
    Script.celestialObjects s1 = Script.createBodies ds ->
    Extended.celestialObjects s2 = Extended.createBodies ds ->
    exists o1 o2,
      nth_error (Script.celestialObjects (Script.run frames1 s1)) i = Some o1 /\
      nth_error (Extended.celestialObjects (Extended.run frames2 s2)) i
      = Some o2 /\
      mesh o1 = mesh o2 /\ pivot o1 = pivot o2 /\
      ringMesh o1 = ringMesh o2 /\ data o1 = data o2.
Proof.
  intros ds frames1 frames2 i d s1 s2 Hi Hlen H1 H2.
  exists (ticks (length frames1) (Script.createBody d)),
         (ticks (length frames2) (Extended.createBody d)).
  split.
  { apply Script_run_nth. rewrite H1. apply Script_createBodies_nth, Hi. }
  split.
  { apply Extended_run_nth.
    - rewrite H2. apply Extended_createBodies_nth, Hi.
    - apply Extended_createBody_isTheo. }
  rewrite Hlen.
  destruct (createBody_mesh_agree d) as (Hm & Hp & Hr).
  destruct (ticks_congr (length frames2) (Script.createBody d)
              (Extended.createBody d)) as (Em & Ep & Ed).
  - symmetry; exact Hm.
  - symmetry; exact Hp.
  - rewrite Script_createBody_data, Extended_createBody_data. reflexivity.
  - split; [exact Em|]. split; [exact Ep|]. split; [|exact Ed].
    destruct (ticks_ringMesh (length frames2) (Script.createBody d)) as [-> _].
    destruct (ticks_ringMesh (length frames2) (Extended.createBody d))
      as [-> _].
    symmetry; exact Hr.
Qed.

Lemma variants_move_bodies_alike_witness :
  nth_error solarSystemData 6 = Some (planet "Saturn" 10 0xF4A460 280 0.003
                                        0.035 true) /\
  length (frames60Hz 3 0) = length (frames60Hz 3 7) /\
  exists o1 o2,
    nth_error (Script.celestialObjects
                 (Script.run (frames60Hz 3 0)
                    (Script.startup window800x600 controlsAtRest))) 6
    = Some o1 /\
    nth_error (Extended.celestialObjects
                 (Extended.run (frames60Hz 3 7)
                    (Extended.startup window800x600 controlsAtRest))) 6
    = Some o2 /\
    mesh o1 = mesh o2 /\ pivot o1 = pivot o2 /\
    ringMesh o1 = ringMesh o2 /\ data o1 = data o2.
Proof.
  split; [reflexivity|]. split; [reflexivity|].
  exact (variants_move_bodies_alike solarSystemData (frames60Hz 3 0)
           (frames60Hz 3 7) 6 _
           (Script.startup window800x600 controlsAtRest)
           (Extended.startup window800x600 controlsAtRest)
           eq_refl eq_refl eq_refl eq_refl).
Defined.

(** ** What the stepper never touches *)

Lemma Script_animateObject_keeps (o : Entity) :
  data (Script.animateObject o) = data o /\
  isTheo (Script.animateObject o) = isTheo o /\
  label (Script.animateObject o) = label o /\
  ringMesh (Script.animateObject o) = ringMesh o /\
  (pivot (Script.animateObject o) = None <-> pivot o = None).
Proof.
  unfold Script.animateObject.
  destruct (truthy_prop (rotationSpeed (data o))); simpl;
    destruct (pivot o) eqn:Hp; simpl;
    destruct (truthy_prop (orbitalSpeed (data o))); simpl;
    rewrite ?Hp; repeat split; intros; (reflexivity || discriminate).
Qed.

Lemma Extended_animateObject_keeps (cam : Camera.t) (t : number) (o : Entity) :
  data (Extended.animateObject cam t o) = data o /\
  isTheo (Extended.animateObject cam t o) = isTheo o /\
  label (Extended.animateObject cam t o) = label o /\
  ringMesh (Extended.animateObject cam t o) = ringMesh o /\
  (pivot (Extended.animateObject cam t o) = None <-> pivot o = None).
Proof.
  destruct (isTheo o) eqn:Hth.
  - unfold Extended.animateObject. rewrite Hth. cbn.
    rewrite Hth. repeat split; intros H; exact H.
  - rewrite (animateObject_agree o cam t Hth), <- Hth.
    apply Script_animateObject_keeps.
Qed.

Lemma Forall2_map_step (A : Type) (R : A -> A -> Prop) (f : A -> A)
    (l0 l : list A) :
  (forall x y, R x y -> R x (f y)) ->
  Forall2 R l0 l -> Forall2 R l0 (map f l).
Proof.
  intros Hf H. induction H; simpl; constructor; auto.
Qed.

Lemma Forall2_diag (A : Type) (R : A -> A -> Prop) (l : list A) :
  (forall x, R x x) -> Forall2 R l l.
Proof. intros HR. induction l; constructor; auto. Qed.

(** X3.  The stepper never adds, drops or reorders a record, and writes
    only transforms: after any frames each record still has its
    descriptor, its Theo flag, its label and ring, and a pivot exactly when
    it had one.  On an empty collection the frames do nothing. *)
Theorem stepper_keeps_the_population :
  forall frames : list Frame,
    let kept (o o' : Entity) :=
      data o' = data o /\ isTheo o' = isTheo o /\ label o' = label o /\
      ringMesh o' = ringMesh o /\ (pivot o' = None <-> pivot o = None) in
    (forall s : Script.State,
        Forall2 kept (Script.celestialObjects s)
                (Script.celestialObjects (Script.run frames s))) /\
    (forall s : Extended.State,
        Forall2 kept (Extended.celestialObjects s)
                (Extended.celestialObjects (Extended.run frames s))).
Proof.
  intros frames kept.
  assert (Hrefl : forall o, kept o o).
  { intros o. unfold kept. repeat split; intros H; exact H. }
  split.
  - assert (H : forall s l0,
               Forall2 kept l0 (Script.celestialObjects s) ->
               Forall2 kept l0
                 (Script.celestialObjects (Script.run frames s))).
    { induction frames as [|frame frames IH]; intros s l0 H0; [exact H0|].
      change (Script.run (frame :: frames) s)
        with (Script.run frames (Script.animate frame s)).
      apply IH. simpl. apply Forall2_map_step; [|exact H0].
      intros x y (Hd & Ht & Hl & Hr & Hp).
      destruct (Script_animateObject_keeps y) as (Hd' & Ht' & Hl' & Hr' & Hp').
      unfold kept. rewrite Hd', Ht', Hl', Hr', Hp'.
      split; [exact Hd|]. split; [exact Ht|]. split; [exact Hl|].
      split; [exact Hr | exact Hp]. }
    intros s. apply H, Forall2_diag, Hrefl.
  - assert (H : forall s l0,
               Forall2 kept l0 (Extended.celestialObjects s) ->
               Forall2 kept l0
                 (Extended.celestialObjects (Extended.run frames s))).
    { induction frames as [|frame frames IH]; intros s l0 H0; [exact H0|].
      change (Extended.run (frame :: frames) s)
        with (Extended.run frames (Extended.animate frame s)).
      apply IH. simpl. apply Forall2_map_step; [|exact H0].
      intros x y (Hd & Ht & Hl & Hr & Hp).
      destruct (Extended_animateObject_keeps (Extended.camera s)
                  (elapsedTime frame) y) as (Hd' & Ht' & Hl' & Hr' & Hp').
      unfold kept. rewrite Hd', Ht', Hl', Hr', Hp'.
      split; [exact Hd|]. split; [exact Ht|]. split; [exact Hl|].
      split; [exact Hr | exact Hp]. }
    intros s. apply H, Forall2_diag, Hrefl.
Qed.

(** ** Theo's path *)

Lemma theoPosition_Fin (t : R) :
  Extended.theoPosition (Fin t)
  = Vector3.mk (Fin (cos (t * 0.1) * 300))
               (Fin (sin (t * 0.1) * 200 * sin (PI / 6)))
               (Fin (sin (t * 0.1) * 200 * cos (PI / 6))).
Proof.
  unfold Extended.theoPosition, Math.PI. rewrite jdiv_Fin by lra.
  reflexivity.
Qed.

(** X4.  At every frame with a finite clock reading Theo is put on the
    ellipse of half-axes 300 and 200 that lies in the plane through the X
    axis tilted by PI/6: its distance from the origin stays between 200 and
    300, whatever the state before. *)
Theorem theo_stays_on_tilted_ellipse :
  forall (s : Extended.State) (frame : Frame) (i : nat) (obj : Entity)
         (t : R),
    nth_error (Extended.celestialObjects s) i = Some obj ->
    isTheo obj = true ->
    elapsedTime frame = Fin t ->
    exists obj' x y z,
      nth_error (Extended.celestialObjects (Extended.animate frame s)) i
      = Some obj' /\
      Object3D.position (mesh obj') = Vector3.mk (Fin x) (Fin y) (Fin z) /\
      (x / 300) ^ 2 + (y / 200) ^ 2 + (z / 200) ^ 2 = 1 /\
      y * cos (PI / 6) = z * sin (PI / 6) /\
      200 ^ 2 <= x ^ 2 + y ^ 2 + z ^ 2 <= 300 ^ 2.
Proof.
  intros s frame i obj t Hi Hth Ht.
  exists (Extended.animateObject (Extended.camera s) (elapsedTime frame) obj),
         (cos (t * 0.1) * 300),
         (sin (t * 0.1) * 200 * sin (PI / 6)),
         (sin (t * 0.1) * 200 * cos (PI / 6)).
  split; [simpl; apply map_nth_error, Hi|]. split.
  { unfold Extended.animateObject. rewrite Hth, Ht.
    cbn [mesh with_mesh]. rewrite lookAt_position.
    exact (theoPosition_Fin t). }
  pose proof (sin2_cos2 (t * 0.1)) as Ha.
  pose proof (sin2_cos2 (PI / 6)) as Hb.
  unfold Rsqr in Ha, Hb.
  set (c := cos (t * 0.1)) in *. set (sn := sin (t * 0.1)) in *.
  set (ct := cos (PI / 6)) in *. set (st := sin (PI / 6)) in *.
  assert (Hyz : (sn * 200 * st) ^ 2 + (sn * 200 * ct) ^ 2
                = 200 ^ 2 * (sn * sn)).
  { replace ((sn * 200 * st) ^ 2 + (sn * 200 * ct) ^ 2)
      with (200 ^ 2 * (sn * sn) * (st * st + ct * ct)) by ring.
    rewrite Hb. ring. }
  split.
  { replace ((c * 300 / 300) ^ 2 + (sn * 200 * st / 200) ^ 2
             + (sn * 200 * ct / 200) ^ 2)
      with (c * c + sn * sn * (st * st + ct * ct)) by field.
    rewrite Hb. lra. }
  split; [ring|].
  replace ((c * 300) ^ 2 + (sn * 200 * st) ^ 2 + (sn * 200 * ct) ^ 2)
    with ((c * 300) ^ 2 + ((sn * 200 * st) ^ 2 + (sn * 200 * ct) ^ 2))
    by ring.
  rewrite Hyz.
  assert (0 <= sn * sn) by nra. assert (0 <= c * c) by nra.
  split; nra.
Qed.

Lemma theo_stays_on_tilted_ellipse_witness :
  nth_error (Extended.celestialObjects
               (Extended.startup window800x600 controlsAtRest)) 9
  = Some Extended.theo /\
  isTheo Extended.theo = true /\
  exists obj' x y z,
    nth_error (Extended.celestialObjects
                 (Extended.animate
                    {| delta := Fin (1 / 60); elapsedTime := Fin 42 |}
                    (Extended.startup window800x600 controlsAtRest))) 9
    = Some obj' /\
    Object3D.position (mesh obj') = Vector3.mk (Fin x) (Fin y) (Fin z) /\
    (x / 300) ^ 2 + (y / 200) ^ 2 + (z / 200) ^ 2 = 1 /\
    y * cos (PI / 6) = z * sin (PI / 6) /\
    200 ^ 2 <= x ^ 2 + y ^ 2 + z ^ 2 <= 300 ^ 2.
Proof.
  split; [reflexivity|]. split; [reflexivity|].
  exact (theo_stays_on_tilted_ellipse
           (Extended.startup window800x600 controlsAtRest)
           {| delta := Fin (1 / 60); elapsedTime := Fin 42 |}
           9 Extended.theo 42 eq_refl eq_refl eq_refl).
Defined.

(** ** A body without [orbitalRadius] *)

Lemma jmul_NaN_r (a : number) : (a * NaN)%js = NaN.
Proof. destruct a; reflexivity. Qed.

Lemma ticks_has_pivot (n : nat) (obj : Entity) (p : Object3D.t) :
  pivot obj = Some p -> exists p', pivot (ticks n obj) = Some p'.
Proof.
  intros Hp. induction n as [|n (p' & Hn)].
  - exists p. exact Hp.
  - change (ticks (S n) obj) with (Script.animateObject (ticks n obj)).
    rewrite (animateObject_pivot _ _ Hn). eexists. reflexivity.
Qed.

Lemma worldPosition_NaN (obj : Entity) (p : Object3D.t) (y z : number) :
  pivot obj = Some p ->
  Object3D.position (mesh obj) = Vector3.mk NaN y z ->
  worldPosition obj = Vector3.mk NaN NaN NaN.
Proof.
  intros Hp Hpos. unfold worldPosition, parents. rewrite Hp.
  rewrite getWorldPosition_below. cbv zeta. rewrite Hpos.
  cbn [Vector3.x Vector3.y Vector3.z]. rewrite !jmul_NaN_r. reflexivity.
Qed.

(** X5.  A non-central body whose descriptor lacks [orbitalRadius] has no
    place in the world: after any frames all three world coordinates of its
    mesh are [NaN], and focusing on it puts [NaN] into the three
    coordinates of the controls' target. *)
Theorem unplaced_body_is_nowhere :
  forall (ds : list Descriptor) (frames : list Frame) (i : nat)
         (d : Descriptor),
    nth_error ds i = Some d ->
    isSun d = false ->
    orbitalRadius d = None ->
    let nowhere := Vector3.mk NaN NaN NaN in
    (forall s : Script.State,
        Script.celestialObjects s = Script.createBodies ds ->
        exists obj,
          nth_error (Script.celestialObjects (Script.run frames s)) i
          = Some obj /\ worldPosition obj = nowhere) /\
    (forall s : Extended.State,
        Extended.celestialObjects s = Extended.createBodies ds ->
        (exists obj,
            nth_error (Extended.celestialObjects (Extended.run frames s)) i
            = Some obj /\ worldPosition obj = nowhere) /\
        OrbitControls.target
          (Extended.controls
             (Extended.focusOnObject i (Extended.run frames s)))
        = nowhere).
Proof.
  intros ds frames i d Hi Hsun Hr nowhere.
  assert (HS : worldPosition (ticks (length frames) (Script.createBody d))
               = nowhere).
  { destruct (Script_createBody_planet d Hsun) as [Hp Hm]. rewrite Hr in Hm.
    destruct (ticks_has_pivot (length frames) _ _ Hp) as (p' & Hp').
    apply (worldPosition_NaN _ p' (Fin 0) (Fin 0) Hp').
    rewrite ticks_mesh_position. exact Hm. }
  assert (HE : worldPosition (ticks (length frames) (Extended.createBody d))
               = nowhere).
  { destruct (Extended_createBody_planet d Hsun) as [Hp Hm]. rewrite Hr in Hm.
    destruct (ticks_has_pivot (length frames) _ _ Hp) as (p' & Hp').
    apply (worldPosition_NaN _ p' (Fin 0) (Fin 0) Hp').
    rewrite ticks_mesh_position. exact Hm. }
  destruct (built_body_after_frames (fun obj => worldPosition obj = nowhere)
              ds frames i d Hi HS HE) as [HSc HEx].
  split; [exact HSc|]. intros s Hs. split; [exact (HEx s Hs)|].
  destruct (HEx s Hs) as (obj & Hobj & Hw).
  unfold Extended.focusOnObject. rewrite Hobj. cbn. exact Hw.
Qed.

Lemma unplaced_body_is_nowhere_witness :
  nth_error [sun; unplacedBody] 1 = Some unplacedBody /\
  isSun unplacedBody = false /\
  orbitalRadius unplacedBody = None /\
  exists obj,
    nth_error (Script.celestialObjects
                 (Script.run (frames60Hz 2 0)
                    {| Script.celestialObjects :=
                         Script.createBodies [sun; unplacedBody];
                       Script.camera := createCamera window800x600;
                       Script.controls := createControls controlsAtRest;
                       Script.renderer := createRenderer window800x600 |})) 1
    = Some obj /\ worldPosition obj = Vector3.mk NaN NaN NaN.
Proof.
  split; [reflexivity|]. split; [reflexivity|]. split; [reflexivity|].
  exact (proj1 (unplaced_body_is_nowhere [sun; unplacedBody]
                  (frames60Hz 2 0) 1 unplacedBody eq_refl eq_refl eq_refl)
               {| Script.celestialObjects :=
                    Script.createBodies [sun; unplacedBody];
                  Script.camera := createCamera window800x600;
                  Script.controls := createControls controlsAtRest;
                  Script.renderer := createRenderer window800x600 |}
               eq_refl).
Defined.

(** ** The ring and the label *)

Lemma setFromEuler_X (a : R) :
  Quaternion.setFromEuler (Euler.mk (Fin a) (Fin 0) (Fin 0))
  = Quaternion.mk (Fin (sin (a / 2))) (Fin 0) (Fin 0) (Fin (cos (a / 2))).
Proof.
  unfold Quaternion.setFromEuler. cbn [Euler.x Euler.y Euler.z].
  rewrite !jdiv_Fin by lra. simpl.
  replace (0 / 2) with 0 by lra. rewrite sin_0, cos_0.
  f_equal; f_equal; ring.
Qed.

(** The local matrix of the ring: its plane, the local XY plane, is laid
    onto the parent's XZ plane. *)
Lemma ring_matrix :
  Object3D.matrix
    (Object3D.set_rotation_x (Math.PI / Fin 2)%js Object3D.new)
  = Matrix4.mk (Fin 1) (Fin 0) (Fin 0) (Fin 0)
               (Fin 0) (Fin 0) (Fin 1) (Fin 0)
               (Fin 0) (Fin (-1)) (Fin 0) (Fin 0)
               (Fin 0) (Fin 0) (Fin 0) (Fin 1).
Proof.
  unfold Math.PI. rewrite jdiv_Fin by lra.
  unfold Object3D.matrix, Object3D.set_rotation_x, Object3D.set_rotation.
  cbn [Object3D.rotation Object3D.new Euler.x Euler.y Euler.z Euler.new
       Object3D.position Object3D.quaternion Object3D.scale].
  rewrite setFromEuler_X.
  pose proof (cos_2a_sin (PI / 2 / 2)) as Hc.
  pose proof (sin_2a (PI / 2 / 2)) as Hs.
  replace (2 * (PI / 2 / 2)) with (PI / 2) in Hc, Hs by lra.
  rewrite cos_PI2 in Hc. rewrite sin_PI2 in Hs.
  apply Matrix4_ext; simpl; f_equal; lra.
Qed.

Lemma ticks_mesh_world_yaw (n : nat) (obj : Entity) :
  spunY 0 (mesh obj) ->
  (pivot obj = None /\ Object3D.position (mesh obj) = Vector3.new) \/
  (pivot obj = Some Object3D.new /\
   exists r, Object3D.position (mesh obj) = Vector3.mk (Fin r) (Fin 0) (Fin 0)) ->
  exists alpha x z,
    Object3D.matrixWorld (parents (ticks n obj)) (mesh (ticks n obj))
    = yawMatrix alpha x 0 z.
Proof.
  intros Hm [[Hp Hpos] | [Hp (r & Hpos)]].
  - exists (0 + INR n * spinStep (data obj)), 0, 0.
    apply mesh_matrixWorld_below_scene.
    + apply ticks_no_pivot, Hp.
    + apply ticks_mesh_spunY, Hm.
    + rewrite ticks_mesh_position. exact Hpos.
  - eexists _, _, _. apply (ticks_planet_matrixWorld n obj r Hp Hm Hpos).
Qed.

(** X6.  The ring of a ringed body stays centred on the body and flat in
    the orbital plane: after any frames its normal, the local Z axis, is
    the vertical [(0, -1, 0)] in the world, whatever the spin and the
    orbit angle of the body. *)
Theorem ring_stays_flat_and_centred :
  forall (ds : list Descriptor) (frames : list Frame) (i : nat)
         (d : Descriptor) (r : R),
    nth_error ds i = Some d ->
    isSun d = false ->
    hasRing d = true ->
    orbitalRadius d = Some r ->
    let flat (obj : Entity) :=
      exists m,
        ringWorldMatrix obj = Some m /\
        Matrix4.column m 2 = Vector3.mk (Fin 0) (Fin (-1)) (Fin 0) /\
        Matrix4.position m = worldPosition obj in
    (forall s : Script.State,
        Script.celestialObjects s = Script.createBodies ds ->
        exists obj,
          nth_error (Script.celestialObjects (Script.run frames s)) i
          = Some obj /\ flat obj) /\
    (forall s : Extended.State,
        Extended.celestialObjects s = Extended.createBodies ds ->
        exists obj,
          nth_error (Extended.celestialObjects (Extended.run frames s)) i
          = Some obj /\ flat obj).
Proof.
  intros ds frames i d r Hi Hsun Hring Hr flat.
  assert (Hflat : forall obj,
             spunY 0 (mesh obj) ->
             pivot obj = Some Object3D.new ->
             Object3D.position (mesh obj) = Vector3.mk (Fin r) (Fin 0) (Fin 0) ->
             ringMesh obj
             = Some (Object3D.set_rotation_x (Math.PI / Fin 2)%js
                       Object3D.new) ->
             flat (ticks (length frames) obj)).
  { intros obj Hm Hp Hpos Hrm.
    destruct (ticks_mesh_world_yaw (length frames) obj Hm) as (a & x & z & Hw).
    { right. split; [exact Hp|]. exists r. exact Hpos. }
    unfold flat, ringWorldMatrix, worldPosition, Object3D.getWorldPosition.
    destruct (ticks_ringMesh (length frames) obj) as [-> _]. rewrite Hrm.
    cbn [option_map Object3D.matrixWorld]. rewrite Hw, ring_matrix.
    eexists. split; [reflexivity|]. unfold yawMatrix. split.
    - simpl. f_equal; f_equal; ring.
    - rewrite position_multiplyMatrices. unfold Matrix4.position. simpl.
      f_equal; f_equal; ring. }
  apply built_body_after_frames with (d := d); [exact Hi | |].
  - destruct (Script_createBody_planet d Hsun) as [Hp Hm]. rewrite Hr in Hm.
    apply Hflat; [apply Script_createBody_spunY | exact Hp | exact Hm |].
    unfold Script.createBody, createRing. rewrite Hsun, Hring. reflexivity.
  - destruct (Extended_createBody_planet d Hsun) as [Hp Hm]. rewrite Hr in Hm.
    destruct (createBody_mesh_agree d) as (Hmesh & _ & _).
    apply Hflat; [rewrite Hmesh; apply Script_createBody_spunY
                 | exact Hp | exact Hm |].
    unfold Extended.createBody, createRing. rewrite Hsun, Hring. reflexivity.
Qed.

Lemma ring_stays_flat_and_centred_witness :
  nth_error solarSystemData 6
  = Some (planet "Saturn" 10 0xF4A460 280 0.003 0.035 true) /\
  exists obj,
    nth_error (Extended.celestialObjects
                 (Extended.run (frames60Hz 9 0)
                    (Extended.startup window800x600 controlsAtRest))) 6
    = Some obj /\
    exists m,
      ringWorldMatrix obj = Some m /\
      Matrix4.column m 2 = Vector3.mk (Fin 0) (Fin (-1)) (Fin 0) /\
      Matrix4.position m = worldPosition obj.
Proof.
  split; [reflexivity|].
  exact (proj2 (ring_stays_flat_and_centred solarSystemData (frames60Hz 9 0)
                  6 _ 280 eq_refl eq_refl eq_refl eq_refl)
               (Extended.startup window800x600 controlsAtRest) eq_refl).
Defined.

(** X7.  The label of a body hovers straight above it: after any frames
    its world position is the world position of the mesh raised by 1.5
    times the radius, whatever the spin and the orbit angle. *)
Theorem label_hovers_above_body :
  forall (ds : list Descriptor) (frames : list Frame) (i : nat)
         (d : Descriptor) (rad : R) (s : Extended.State),
    nth_error ds i = Some d ->
    radius d = Some rad ->
    isSun d = true \/ (exists r, orbitalRadius d = Some r) ->
    Extended.celestialObjects s = Extended.createBodies ds ->
    exists obj x z,
      nth_error (Extended.celestialObjects (Extended.run frames s)) i
      = Some obj /\
      worldPosition obj = Vector3.mk (Fin x) (Fin 0) (Fin z) /\
      labelWorldPosition obj
      = Some (Vector3.mk (Fin x) (Fin (rad * 1.5)) (Fin z)).
Proof.
  intros ds frames i d rad s Hi Hrad Hplace Hs.
  set (obj := ticks (length frames) (Extended.createBody d)).
  destruct (createBody_mesh_agree d) as (Hmesh & _ & _).
  assert (Hm : spunY 0 (mesh (Extended.createBody d)))
    by (rewrite Hmesh; apply Script_createBody_spunY).
  destruct (ticks_mesh_world_yaw (length frames) (Extended.createBody d) Hm)
    as (a & x & z & Hw).
  { destruct (isSun d) eqn:Hsun.
    - left. apply Extended_createBody_sun, Hsun.
    - right. destruct Hplace as [Hc | (r & Hr)]; [discriminate|].
      destruct (Extended_createBody_planet d Hsun) as [Hp Hpos].
      rewrite Hr in Hpos. split; [exact Hp|]. exists r. exact Hpos. }
  exists obj, x, z. split.
  { apply Extended_run_nth.
    - rewrite Hs. apply Extended_createBodies_nth, Hi.
    - apply Extended_createBody_isTheo. }
  fold obj in Hw. split.
  - unfold worldPosition, Object3D.getWorldPosition. rewrite Hw. reflexivity.
  - unfold labelWorldPosition.
    destruct (ticks_ringMesh (length frames) (Extended.createBody d))
      as [_ Hl]. fold obj in Hl. rewrite Hl.
    assert (Hlab : label (Extended.createBody d)
                   = Some (Extended.createLabel d))
      by (unfold Extended.createBody; destruct (isSun d); reflexivity).
    rewrite Hlab. cbn [option_map]. rewrite getWorldPosition_below.
    cbv zeta. rewrite Hw. unfold Extended.createLabel. rewrite Hrad.
    unfold yawMatrix. simpl. f_equal. f_equal; f_equal; ring.
Qed.

Lemma label_hovers_above_body_witness :
  nth_error solarSystemData 3 = Some earth /\
  radius earth = Some 4.5 /\
  (isSun earth = true \/ exists r, orbitalRadius earth = Some r) /\
  exists obj x z,
    nth_error (Extended.celestialObjects
                 (Extended.run (frames60Hz 5 0)
                    (Extended.startup window800x600 controlsAtRest))) 3
    = Some obj /\
    worldPosition obj = Vector3.mk (Fin x) (Fin 0) (Fin z) /\
    labelWorldPosition obj
    = Some (Vector3.mk (Fin x) (Fin (4.5 * 1.5)) (Fin z)).
Proof.
  split; [reflexivity|]. split; [reflexivity|].
  split; [right; exists 120; reflexivity|].
  exact (label_hovers_above_body solarSystemData (frames60Hz 5 0) 3 earth 4.5
           (Extended.startup window800x600 controlsAtRest)
           eq_refl eq_refl (or_intror (ex_intro _ 120 eq_refl)) eq_refl).
Defined.

(** ** Frames, resizes and clicks, interleaved *)

Lemma clickLabel_objects (i : nat) (s : Extended.State) :
  Extended.celestialObjects (EventLoop.clickLabel i s)
  = Extended.celestialObjects s.
Proof.
  unfold EventLoop.clickLabel, Extended.focusOnObject.
  destruct (nth_error (Extended.celestialObjects s) i) as [obj|];
    [destruct (label obj)|]; reflexivity.
Qed.

Lemma EventLoop_run_nth :
  forall (events : list EventLoop.Event) (s : Extended.State) (i : nat)
         (obj : Entity),
    nth_error (Extended.celestialObjects s) i = Some obj ->
    isTheo obj = false ->
    nth_error (Extended.celestialObjects (EventLoop.run events s)) i
    = Some (ticks (EventLoop.frameCount events) obj).
Proof.
  induction events as [|e events IH]; intros s i obj Hi Hth; [exact Hi|].
  change (EventLoop.run (e :: events) s)
    with (EventLoop.run events (EventLoop.dispatch e s)).
  destruct e as [frame | window | j].
  - cbn [EventLoop.frameCount]. rewrite ticks_succ_r. apply IH.
    + cbn [EventLoop.dispatch]. simpl.
      rewrite <- (animateObject_agree obj (Extended.camera s)
                    (elapsedTime frame) Hth).
      apply map_nth_error, Hi.
    + rewrite animateObject_isTheo. exact Hth.
  - cbn [EventLoop.frameCount]. apply IH; [exact Hi | exact Hth].
  - cbn [EventLoop.frameCount]. apply IH; [|exact Hth].
    cbn [EventLoop.dispatch]. rewrite clickLabel_objects. exact Hi.
Qed.

(** X8.  However frames, window resizes and label clicks interleave, the
    record of a body depends on the number of frames only: it is the
    record that many plain frames give, so resizes and clicks in between
    leave its mesh and pivot as they are. *)
Theorem bodies_count_frames_only :
  forall (events : list EventLoop.Event) (frames : list Frame)
         (s : Extended.State) (i : nat) (obj : Entity),
    nth_error (Extended.celestialObjects s) i = Some obj ->
    isTheo obj = false ->
    length frames = EventLoop.frameCount events ->
    nth_error (Extended.celestialObjects (EventLoop.run events s)) i
    = nth_error (Extended.celestialObjects (Extended.run frames s)) i.
Proof.
  intros events frames s i obj Hi Hth Hlen.
  rewrite (EventLoop_run_nth events s i obj Hi Hth).
  rewrite (Extended_run_nth frames s i obj Hi Hth).
  rewrite Hlen. reflexivity.
Qed.

Lemma bodies_count_frames_only_witness :
  nth_error (Extended.celestialObjects
               (Extended.startup window800x600 controlsAtRest)) 3
  = Some (Extended.createBody earth) /\
  isTheo (Extended.createBody earth) = false /\
  nth_error
    (Extended.celestialObjects
       (EventLoop.run
          [EventLoop.AnimationFrame {| delta := Fin 0; elapsedTime := Fin 0 |};
           EventLoop.LabelClick 3;
           EventLoop.WindowResize window800x600;
           EventLoop.AnimationFrame {| delta := Fin 1; elapsedTime := Fin 1 |}]
          (Extended.startup window800x600 controlsAtRest))) 3
  = nth_error
      (Extended.celestialObjects
         (Extended.run (frames60Hz 2 0)
            (Extended.startup window800x600 controlsAtRest))) 3.
Proof.
  split; [reflexivity|]. split; [reflexivity|].
  exact (bodies_count_frames_only
           [EventLoop.AnimationFrame {| delta := Fin 0; elapsedTime := Fin 0 |};
            EventLoop.LabelClick 3;
            EventLoop.WindowResize window800x600;
            EventLoop.AnimationFrame {| delta := Fin 1; elapsedTime := Fin 1 |}]
           (frames60Hz 2 0)
           (Extended.startup window800x600 controlsAtRest) 3
           (Extended.createBody earth) eq_refl eq_refl eq_refl).
Defined.

Lemma EventLoop_run_app (a b : list EventLoop.Event) (s : Extended.State) :
  EventLoop.run (a ++ b) s = EventLoop.run b (EventLoop.run a s).
Proof. unfold EventLoop.run. apply fold_left_app. Qed.

Lemma dispatch_noPanPending (e : EventLoop.Event) (s : Extended.State) :
  noPanPending (Extended.controls s) ->
  noPanPending (Extended.controls (EventLoop.dispatch e s)).
Proof.
  intros Hs. destruct e as [frame | window | i].
  - cbn [EventLoop.dispatch Extended.animate Extended.controls].
    rewrite (updated_noPanPending _ Hs). exact Hs.
  - exact Hs.
  - cbn [EventLoop.dispatch]. unfold EventLoop.clickLabel.
    destruct (nth_error (Extended.celestialObjects s) i) as [obj|] eqn:Hi;
      [|exact Hs].
    destruct (label obj); [|exact Hs].
    unfold Extended.focusOnObject. rewrite Hi.
    apply set_target_noPanPending, Hs.
Qed.

Lemma EventLoop_run_noPanPending (events : list EventLoop.Event) :
  forall s : Extended.State,
    noPanPending (Extended.controls s) ->
    noPanPending (Extended.controls (EventLoop.run events s)).
Proof.
  induction events as [|e events IH]; intros s Hs; [exact Hs|].
  change (EventLoop.run (e :: events) s)
    with (EventLoop.run events (EventLoop.dispatch e s)).
  apply IH, dispatch_noPanPending, Hs.
Qed.

Lemma run_without_click_controls (events : list EventLoop.Event) :
  forallb (fun e => negb (EventLoop.isClick e)) events = true ->
  forall s : Extended.State,
    noPanPending (Extended.controls s) ->
    Extended.controls (EventLoop.run events s) = Extended.controls s.
Proof.
  induction events as [|e events IH]; intros Hno s Hs; [reflexivity|].
  cbn [forallb] in Hno. apply andb_prop in Hno. destruct Hno as [He Hno].
  change (EventLoop.run (e :: events) s)
    with (EventLoop.run events (EventLoop.dispatch e s)).
  rewrite (IH Hno) by (apply dispatch_noPanPending, Hs).
  destruct e as [frame | window | i]; [| reflexivity | discriminate].
  cbn [EventLoop.dispatch Extended.animate Extended.controls].
  apply updated_noPanPending, Hs.
Qed.

Lemma Extended_createBody_label (d : Descriptor) :
  label (Extended.createBody d) = Some (Extended.createLabel d).
Proof. unfold Extended.createBody. destruct (isSun d); reflexivity. Qed.

(** X9.  A click on the label of a built non-central body of orbital
    radius [r] sets the controls' target to the point of the body's circle
    at the angle [theta] its pivot stores at the click, that is after the
    frames that came before, [(r cos theta, 0, - r sin theta)]; the frames
    and resizes that follow write no other value, so as long as
    [controls.update()] leaves the target (no pan gesture is pending) it
    is still there at the next click. *)
Theorem target_is_the_last_clicked_position :
  forall (ds : list Descriptor) (before after : list EventLoop.Event)
         (s : Extended.State) (i : nat) (d : Descriptor) (r : R),
    Extended.celestialObjects s = Extended.createBodies ds ->
    nth_error ds i = Some d ->
    isSun d = false ->
    orbitalRadius d = Some r ->
    noPanPending (Extended.controls s) ->
    forallb (fun e => negb (EventLoop.isClick e)) after = true ->
    exists (obj : Entity) (p : Object3D.t) (theta : R),
      nth_error (Extended.celestialObjects (EventLoop.run before s)) i
      = Some obj /\
      pivot obj = Some p /\
      turnedY theta p /\
      OrbitControls.target
        (Extended.controls
           (EventLoop.run (before ++ EventLoop.LabelClick i :: after) s))
      = Vector3.mk (Fin (r * cos theta)) (Fin 0) (Fin (- (r * sin theta))).
Proof.
  intros ds before after s i d r Hs Hi Hsun Hr Hpan Hno.
  destruct (Extended_createBody_planet d Hsun) as [Hp Hm]. rewrite Hr in Hm.
  destruct (ticks_planet_state (EventLoop.frameCount before)
              (Extended.createBody d) r Hp (Extended_createBody_spunY d) Hm)
    as (p & theta & phi & Hp' & Ht & _ & Hpos').
  assert (Hn : nth_error (Extended.celestialObjects (EventLoop.run before s)) i
               = Some (ticks (EventLoop.frameCount before)
                         (Extended.createBody d))).
  { apply EventLoop_run_nth.
    - rewrite Hs. apply Extended_createBodies_nth, Hi.
    - apply Extended_createBody_isTheo. }
  exists (ticks (EventLoop.frameCount before) (Extended.createBody d)),
         p, theta.
  split; [exact Hn|]. split; [exact Hp'|]. split; [exact Ht|].
  rewrite EventLoop_run_app.
  change (EventLoop.run (EventLoop.LabelClick i :: after)
            (EventLoop.run before s))
    with (EventLoop.run after
            (EventLoop.dispatch (EventLoop.LabelClick i)
               (EventLoop.run before s))).
  rewrite (run_without_click_controls after Hno)
    by (apply dispatch_noPanPending, EventLoop_run_noPanPending, Hpan).
  cbn [EventLoop.dispatch]. unfold EventLoop.clickLabel. rewrite Hn.
  destruct (ticks_ringMesh (EventLoop.frameCount before)
              (Extended.createBody d)) as [_ ->].
  rewrite Extended_createBody_label.
  unfold Extended.focusOnObject. rewrite Hn.
  cbn [Extended.controls OrbitControls.set_target OrbitControls.target].
  exact (worldPosition_turnedY _ p r theta Hp' Ht Hpos').
Qed.

Lemma target_is_the_last_clicked_position_witness :
  Extended.celestialObjects (Extended.startup window800x600 controlsAtRest)
  = Extended.createBodies solarSystemData /\
  nth_error solarSystemData 3 = Some earth /\
  isSun earth = false /\
  orbitalRadius earth = Some 120 /\
  noPanPending
    (Extended.controls (Extended.startup window800x600 controlsAtRest)) /\
  exists (obj : Entity) (p : Object3D.t) (theta : R),
    nth_error
      (Extended.celestialObjects
         (EventLoop.run
            [EventLoop.AnimationFrame {| delta := Fin 0; elapsedTime := Fin 0 |}]
            (Extended.startup window800x600 controlsAtRest))) 3
    = Some obj /\
    pivot obj = Some p /\
    turnedY theta p /\
    OrbitControls.target
      (Extended.controls
         (EventLoop.run
            ([EventLoop.AnimationFrame {| delta := Fin 0; elapsedTime := Fin 0 |}]
             ++ EventLoop.LabelClick 3
                :: [EventLoop.WindowResize window800x600;
                    EventLoop.AnimationFrame
                      {| delta := Fin 1; elapsedTime := Fin 1 |}])
            (Extended.startup window800x600 controlsAtRest)))
    = Vector3.mk (Fin (120 * cos theta)) (Fin 0) (Fin (- (120 * sin theta))).
Proof.
  split; [reflexivity|]. split; [reflexivity|]. split; [reflexivity|].
  split; [reflexivity|]. split; [intros v; reflexivity|].
  exact (target_is_the_last_clicked_position solarSystemData
           [EventLoop.AnimationFrame {| delta := Fin 0; elapsedTime := Fin 0 |}]
           [EventLoop.WindowResize window800x600;
            EventLoop.AnimationFrame {| delta := Fin 1; elapsedTime := Fin 1 |}]
           (Extended.startup window800x600 controlsAtRest) 3 earth 120
           eq_refl eq_refl eq_refl eq_refl (fun v => eq_refl) eq_refl).
Defined.

(** X11.  Seen from the world, the heading of a built non-central body is
    the sum of the two angles the stepper stores: with the pivot turned to
    [theta] and the mesh spun to [phi], the local X and Z axes of the mesh
    are the world axes turned about Y by [theta + phi], and its Y axis is
    the world's. *)
Theorem planet_world_heading :
  forall (ds : list Descriptor) (frames : list Frame) (i : nat)
         (d : Descriptor) (r : R),
    nth_error ds i = Some d ->
    isSun d = false ->
    orbitalRadius d = Some r ->
    let heading (obj : Entity) :=
      exists (p : Object3D.t) (theta phi : R),
        pivot obj = Some p /\
        turnedY theta p /\
        spunY phi (mesh obj) /\
        let m := Object3D.matrixWorld (parents obj) (mesh obj) in
        Matrix4.column m 0
        = Vector3.mk (Fin (cos (theta + phi))) (Fin 0)
                     (Fin (- sin (theta + phi))) /\
        Matrix4.column m 1 = Vector3.mk (Fin 0) (Fin 1) (Fin 0) /\
        Matrix4.column m 2
        = Vector3.mk (Fin (sin (theta + phi))) (Fin 0)
                     (Fin (cos (theta + phi))) in
    (forall s : Script.State,
        Script.celestialObjects s = Script.createBodies ds ->
        exists obj,
          nth_error (Script.celestialObjects (Script.run frames s)) i
          = Some obj /\ heading obj) /\
    (forall s : Extended.State,
        Extended.celestialObjects s = Extended.createBodies ds ->
        exists obj,
          nth_error (Extended.celestialObjects (Extended.run frames s)) i
          = Some obj /\ heading obj).
Proof.
  intros ds frames i d r Hi Hsun Hr heading.
  assert (Hhead : forall obj,
             pivot obj = Some Object3D.new ->
             spunY 0 (mesh obj) ->
             Object3D.position (mesh obj) = Vector3.mk (Fin r) (Fin 0) (Fin 0) ->
             heading (ticks (length frames) obj)).
  { intros obj Hp Hm Hpos.
    destruct (ticks_planet_state (length frames) obj r Hp Hm Hpos)
      as (p & theta & phi & Hp' & Ht & Hm' & Hpos').
    exists p, theta, phi.
    split; [exact Hp'|]. split; [exact Ht|]. split; [exact Hm'|].
    cbv zeta.
    rewrite (mesh_matrixWorld_below_pivot _ p theta phi r 0 0
               Hp' Ht Hm' Hpos').
    unfold yawMatrix. split; [reflexivity|]. split; reflexivity. }
  apply built_body_after_frames with (d := d); [exact Hi | |].
  - destruct (Script_createBody_planet d Hsun) as [Hp Hm]. rewrite Hr in Hm.
    apply Hhead; [exact Hp | apply Script_createBody_spunY | exact Hm].
  - destruct (Extended_createBody_planet d Hsun) as [Hp Hm]. rewrite Hr in Hm.
    apply Hhead; [exact Hp | apply Extended_createBody_spunY | exact Hm].
Qed.

Lemma planet_world_heading_witness :
  nth_error solarSystemData 3 = Some earth /\
  isSun earth = false /\
  orbitalRadius earth = Some 120 /\
  exists obj,
    nth_error (Extended.celestialObjects
                 (Extended.run (frames60Hz 6 0)
                    (Extended.startup window800x600 controlsAtRest))) 3
    = Some obj /\
    exists (p : Object3D.t) (theta phi : R),
      pivot obj = Some p /\
      turnedY theta p /\
      spunY phi (mesh obj) /\
      Matrix4.column (Object3D.matrixWorld (parents obj) (mesh obj)) 0
      = Vector3.mk (Fin (cos (theta + phi))) (Fin 0)
                   (Fin (- sin (theta + phi))).
Proof.
  split; [reflexivity|]. split; [reflexivity|]. split; [reflexivity|].
  destruct (proj2 (planet_world_heading solarSystemData (frames60Hz 6 0) 3
                     earth 120 eq_refl eq_refl eq_refl)
                  (Extended.startup window800x600 controlsAtRest) eq_refl)
    as (obj & Hn & p & theta & phi & Hp & Ht & Hm & H0 & _).
  exists obj. split; [exact Hn|].
  exists p, theta, phi.
  split; [exact Hp|]. split; [exact Ht|]. split; [exact Hm|]. exact H0.
Defined.

(** ** Rotation matrices and their quaternions *)

Section RotationMatrix.

Variables m11 m21 m31 m12 m22 m32 m13 m23 m33 : R.
Hypothesis Hrot : isRotation m11 m21 m31 m12 m22 m32 m13 m23 m33.

(** The four branches of [Quaternion.setFromRotationMatrix], on reals:
    [r] is the square root taken, [u] the inverse of the divisor. *)
Lemma quaternion_case_w (r s x y z w : R) :
  r * r = m11 + m22 + m33 + 1 -> 2 * s * r = 1 -> 2 * w = r ->
  x = (m32 - m23) * s -> y = (m13 - m31) * s -> z = (m21 - m12) * s ->
  quaternionGives x y z w m11 m21 m31 m12 m22 m32 m13 m23 m33.
Proof.
  destruct Hrot as (HX & HZ & HXZ & HY1 & HY2 & HY3).
  intros Hr Hs Hw -> -> ->. unfold quaternionGives.
  split; [nsatz|]; split; [nsatz|]; split; [nsatz|]; split; [nsatz|];
  split; [nsatz|]; split; [nsatz|]; split; [nsatz|]; split; nsatz.
Qed.

Lemma quaternion_case_x (r u x y z w : R) :
  r * r = 1 + m11 - m22 - m33 -> u * (2 * r) = 1 -> 2 * x = r ->
  y = (m12 + m21) * u -> z = (m13 + m31) * u -> w = (m32 - m23) * u ->
  quaternionGives x y z w m11 m21 m31 m12 m22 m32 m13 m23 m33.
Proof.
  destruct Hrot as (HX & HZ & HXZ & HY1 & HY2 & HY3).
  intros Hr Hu Hx -> -> ->. unfold quaternionGives.
  split; [nsatz|]; split; [nsatz|]; split; [nsatz|]; split; [nsatz|];
  split; [nsatz|]; split; [nsatz|]; split; [nsatz|]; split; nsatz.
Qed.

Lemma quaternion_case_y (r u x y z w : R) :
  r * r = 1 + m22 - m11 - m33 -> u * (2 * r) = 1 -> 2 * y = r ->
  x = (m12 + m21) * u -> z = (m23 + m32) * u -> w = (m13 - m31) * u ->
  quaternionGives x y z w m11 m21 m31 m12 m22 m32 m13 m23 m33.
Proof.
  destruct Hrot as (HX & HZ & HXZ & HY1 & HY2 & HY3).
  intros Hr Hu Hy -> -> ->. unfold quaternionGives.
  split; [nsatz|]; split; [nsatz|]; split; [nsatz|]; split; [nsatz|];
  split; [nsatz|]; split; [nsatz|]; split; [nsatz|]; split; nsatz.
Qed.

Lemma quaternion_case_z (r u x y z w : R) :
  r * r = 1 + m33 - m11 - m22 -> u * (2 * r) = 1 -> 2 * z = r ->
  x = (m13 + m31) * u -> y = (m23 + m32) * u -> w = (m21 - m12) * u ->
  quaternionGives x y z w m11 m21 m31 m12 m22 m32 m13 m23 m33.
Proof.
  destruct Hrot as (HX & HZ & HXZ & HY1 & HY2 & HY3).
  intros Hr Hu Hz -> -> ->. unfold quaternionGives.
  split; [nsatz|]; split; [nsatz|]; split; [nsatz|]; split; [nsatz|];
  split; [nsatz|]; split; [nsatz|]; split; [nsatz|]; split; nsatz.
Qed.

End RotationMatrix.

Lemma half_over (r : R) :
  r <> 0 -> 2 * (0.5 / r) * r = 1 /\ 2 * (0.25 / (0.5 / r)) = r.
Proof.
  intros Hr. replace 0.5 with (1 / 2) by lra. replace 0.25 with (1 / 4) by lra.
  split; field; lra.
Qed.

Lemma Math_sqrt_Fin (a : R) : 0 <= a -> Math.sqrt (Fin a) = Fin (sqrt a).
Proof.
  intros Ha. unfold Math.sqrt. destruct (Rlt_dec a 0); [lra | reflexivity].
Qed.

Lemma jgt_Fin (a b : R) :
  jgt (Fin a) (Fin b) = if Rlt_dec b a then true else false.
Proof. reflexivity. Qed.

(** [Quaternion.setFromRotationMatrix] on a rotation matrix returns a
    quaternion from which [Matrix4.compose] computes the matrix back. *)
Lemma setFromRotationMatrix_rotation (m : Matrix4.t)
    (m11 m21 m31 m12 m22 m32 m13 m23 m33 : R) :
  Matrix4.column m 0 = Vector3.mk (Fin m11) (Fin m21) (Fin m31) ->
  Matrix4.column m 1 = Vector3.mk (Fin m12) (Fin m22) (Fin m32) ->
  Matrix4.column m 2 = Vector3.mk (Fin m13) (Fin m23) (Fin m33) ->
  isRotation m11 m21 m31 m12 m22 m32 m13 m23 m33 ->
  exists x y z w,
    Quaternion_setFromRotationMatrix m
    = Quaternion.mk (Fin x) (Fin y) (Fin z) (Fin w) /\
    quaternionGives x y z w m11 m21 m31 m12 m22 m32 m13 m23 m33.
Proof.
  intros H0 H1 H2 Hrot. destruct m. cbn in H0, H1, H2.
  injection H0 as -> -> ->. injection H1 as -> -> ->.
  injection H2 as -> -> ->.
  unfold Quaternion_setFromRotationMatrix.
  cbn [Matrix4.te0 Matrix4.te1 Matrix4.te2 Matrix4.te4 Matrix4.te5
       Matrix4.te6 Matrix4.te8 Matrix4.te9 Matrix4.te10 jadd jsub jmul].
  rewrite !jgt_Fin.
  destruct (Rlt_dec 0 (m11 + m22 + m33)) as [Ht|Ht].
  - set (r := sqrt (m11 + m22 + m33 + 1)).
    assert (Hr0 : 0 < r) by (apply sqrt_lt_R0; lra).
    assert (Hrr : r * r = m11 + m22 + m33 + 1) by (apply sqrt_sqrt; lra).
    rewrite Math_sqrt_Fin by lra. fold r.
    rewrite jdiv_Fin by lra.
    assert (Hs0 : 0.5 / r <> 0).
    { apply Rgt_not_eq. apply Rdiv_lt_0_compat; lra. }
    rewrite jdiv_Fin by exact Hs0. cbn [jmul].
    eexists _, _, _, _. split; [reflexivity|].
    apply (quaternion_case_w _ _ _ _ _ _ _ _ _ Hrot r (0.5 / r));
      try reflexivity;
      [exact Hrr | apply half_over; lra | apply half_over; lra].
  - destruct (Rlt_dec m22 m11) as [H12|H12];
      [destruct (Rlt_dec m33 m11) as [H13|H13]|]; cbn [andb].
    + set (r := sqrt (1 + m11 - m22 - m33)).
      assert (Hr0 : 0 < r) by (apply sqrt_lt_R0; lra).
      assert (Hrr : r * r = 1 + m11 - m22 - m33) by (apply sqrt_sqrt; lra).
      rewrite Math_sqrt_Fin by lra. fold r. cbn [jmul].
      rewrite !jdiv_Fin by lra.
      eexists _, _, _, _. split; [reflexivity|].
      apply (quaternion_case_x _ _ _ _ _ _ _ _ _ Hrot r (/ (2 * r)));
        try reflexivity; [exact Hrr | field; lra | lra].
    + destruct (Rlt_dec m33 m22) as [H23|H23].
      * set (r := sqrt (1 + m22 - m11 - m33)).
        assert (Hr0 : 0 < r) by (apply sqrt_lt_R0; lra).
        assert (Hrr : r * r = 1 + m22 - m11 - m33) by (apply sqrt_sqrt; lra).
        rewrite Math_sqrt_Fin by lra. fold r. cbn [jmul].
        rewrite !jdiv_Fin by lra.
        eexists _, _, _, _. split; [reflexivity|].
        apply (quaternion_case_y _ _ _ _ _ _ _ _ _ Hrot r (/ (2 * r)));
          try reflexivity; [exact Hrr | field; lra | lra].
      * set (r := sqrt (1 + m33 - m11 - m22)).
        assert (Hr0 : 0 < r) by (apply sqrt_lt_R0; lra).
        assert (Hrr : r * r = 1 + m33 - m11 - m22) by (apply sqrt_sqrt; lra).
        rewrite Math_sqrt_Fin by lra. fold r. cbn [jmul].
        rewrite !jdiv_Fin by lra.
        eexists _, _, _, _. split; [reflexivity|].
        apply (quaternion_case_z _ _ _ _ _ _ _ _ _ Hrot r (/ (2 * r)));
          try reflexivity; [exact Hrr | field; lra | lra].
    + destruct (Rlt_dec m33 m22) as [H23|H23].
      * set (r := sqrt (1 + m22 - m11 - m33)).
        assert (Hr0 : 0 < r) by (apply sqrt_lt_R0; lra).
        assert (Hrr : r * r = 1 + m22 - m11 - m33) by (apply sqrt_sqrt; lra).
        rewrite Math_sqrt_Fin by lra. fold r. cbn [jmul].
        rewrite !jdiv_Fin by lra.
        eexists _, _, _, _. split; [reflexivity|].
        apply (quaternion_case_y _ _ _ _ _ _ _ _ _ Hrot r (/ (2 * r)));
          try reflexivity; [exact Hrr | field; lra | lra].
      * set (r := sqrt (1 + m33 - m11 - m22)).
        assert (Hr0 : 0 < r) by (apply sqrt_lt_R0; lra).
        assert (Hrr : r * r = 1 + m33 - m11 - m22) by (apply sqrt_sqrt; lra).
        rewrite Math_sqrt_Fin by lra. fold r. cbn [jmul].
        rewrite !jdiv_Fin by lra.
        eexists _, _, _, _. split; [reflexivity|].
        apply (quaternion_case_z _ _ _ _ _ _ _ _ _ Hrot r (/ (2 * r)));
          try reflexivity; [exact Hrr | field; lra | lra].
Qed.

(** ** The basis [Matrix4.lookAt] builds *)

Lemma normalize_Fin (a b c : R) :
  a * a + b * b + c * c <> 0 ->
  Vector3.normalize (Vector3.mk (Fin a) (Fin b) (Fin c))
  = Vector3.mk (Fin (a * (1 / sqrt (a * a + b * b + c * c))))
               (Fin (b * (1 / sqrt (a * a + b * b + c * c))))
               (Fin (c * (1 / sqrt (a * a + b * b + c * c)))).
Proof.
  intros Hn.
  assert (Hpos : 0 < a * a + b * b + c * c) by nra.
  assert (HL : sqrt (a * a + b * b + c * c) <> 0)
    by (apply Rgt_not_eq, sqrt_lt_R0, Hpos).
  unfold Vector3.normalize, Vector3.divideScalar, Vector3.multiplyScalar,
    Vector3.length, Vector3.lengthSq.
  cbn [Vector3.x Vector3.y Vector3.z jmul jadd].
  rewrite Math_sqrt_Fin by lra.
  unfold jor, truthy.
  destruct (Req_dec_T (sqrt (a * a + b * b + c * c)) 0); [contradiction|].
  rewrite jdiv_Fin by exact HL. reflexivity.
Qed.

Lemma jeq_Fin_0 (a : R) : a <> 0 -> jeq (Fin a) (Fin 0) = false.
Proof.
  intros Ha. unfold jeq. destruct (Req_dec_T a 0); [contradiction|reflexivity].
Qed.

(** On reals: the unit vector along [d], the horizontal unit vector at a
    right angle to it and their cross product form a rotation matrix, as
    long as [d] is not vertical. *)
Lemma lookAt_basis_rotation (dx dy dz L u H v a b c x1 x3 : R) :
  dx * dx + dz * dz <> 0 ->
  L * L = dx * dx + dy * dy + dz * dz -> u * L = 1 ->
  a = dx * u -> b = dy * u -> c = dz * u ->
  x1 = 1 * c - 0 * b -> x3 = 0 * b - 1 * a ->
  H * H = x1 * x1 + (0 * a - 0 * c) * (0 * a - 0 * c) + x3 * x3 ->
  v * H = 1 ->
  isRotation (x1 * v) ((0 * a - 0 * c) * v) (x3 * v)
             (b * (x3 * v) - c * ((0 * a - 0 * c) * v))
             (c * (x1 * v) - a * (x3 * v))
             (a * ((0 * a - 0 * c) * v) - b * (x1 * v))
             a b c.
Proof.
  intros Hd HL Hu -> -> -> -> -> HH Hv. unfold isRotation.
  split; [nsatz|]. split; [nsatz|]. split; [nsatz|].
  split; [reflexivity|]. split; reflexivity.
Qed.

Lemma Matrix4_lookAt_basis (ex ey ez tx ty tz : R) :
  (ex - tx) * (ex - tx) + (ez - tz) * (ez - tz) <> 0 ->
  exists m11 m21 m31 m12 m22 m32 m13 m23 m33,
    Matrix4.lookAt Matrix4.identity
      (Vector3.mk (Fin ex) (Fin ey) (Fin ez))
      (Vector3.mk (Fin tx) (Fin ty) (Fin tz))
      (Vector3.mk (Fin 0) (Fin 1) (Fin 0))
    = Matrix4.mk (Fin m11) (Fin m21) (Fin m31) (Fin 0)
                 (Fin m12) (Fin m22) (Fin m32) (Fin 0)
                 (Fin m13) (Fin m23) (Fin m33) (Fin 0)
                 (Fin 0) (Fin 0) (Fin 0) (Fin 1) /\
    isRotation m11 m21 m31 m12 m22 m32 m13 m23 m33 /\
    m21 = 0 /\
    let L := sqrt ((ex - tx) * (ex - tx) + (ey - ty) * (ey - ty)
                   + (ez - tz) * (ez - tz)) in
    m13 = (ex - tx) / L /\ m23 = (ey - ty) / L /\ m33 = (ez - tz) / L.
Proof.
  intros Hd.
  set (dx := ex - tx) in *. set (dy := ey - ty). set (dz := ez - tz) in *.
  set (S := dx * dx + dy * dy + dz * dz).
  assert (HS : 0 < S) by (unfold S; nra).
  set (L := sqrt S).
  assert (HL0 : 0 < L) by (apply sqrt_lt_R0, HS).
  assert (HLL : L * L = S) by (apply sqrt_sqrt; lra).
  set (u := 1 / L).
  assert (Hu : u * L = 1) by (unfold u; field; lra).
  set (a := dx * u). set (b := dy * u). set (c := dz * u).
  set (x1 := 1 * c - 0 * b). set (x3 := 0 * b - 1 * a).
  set (T := x1 * x1 + (0 * a - 0 * c) * (0 * a - 0 * c) + x3 * x3).
  assert (HT : T = (dx * dx + dz * dz) * (u * u))
    by (unfold T, x1, x3, a, c; ring).
  assert (Hu0 : 0 < u) by (unfold u; apply Rdiv_lt_0_compat; lra).
  assert (HT0 : 0 < T) by (rewrite HT; apply Rmult_lt_0_compat; nra).
  set (H := sqrt T).
  assert (HH0 : 0 < H) by (apply sqrt_lt_R0, HT0).
  assert (HHH : H * H = T) by (apply sqrt_sqrt; lra).
  set (v := 1 / H).
  assert (Hv : v * H = 1) by (unfold v; field; lra).
  exists (x1 * v), ((0 * a - 0 * c) * v), (x3 * v),
         (b * (x3 * v) - c * ((0 * a - 0 * c) * v)),
         (c * (x1 * v) - a * (x3 * v)),
         (a * ((0 * a - 0 * c) * v) - b * (x1 * v)),
         a, b, c.
  split.
  { unfold Matrix4.lookAt, Vector3.subVectors.
    cbn [Vector3.x Vector3.y Vector3.z jsub].
    fold dx dy dz.
    assert (E1 : Vector3.lengthSq (Vector3.mk (Fin dx) (Fin dy) (Fin dz))
                 = Fin S) by reflexivity.
    rewrite E1, (jeq_Fin_0 S) by lra.
    rewrite (normalize_Fin dx dy dz) by (fold S; lra).
    fold S L u a b c.
    assert (EC : Vector3.crossVectors
                   (Vector3.mk (Fin 0) (Fin 1) (Fin 0))
                   (Vector3.mk (Fin a) (Fin b) (Fin c))
                 = Vector3.mk (Fin x1) (Fin (0 * a - 0 * c)) (Fin x3))
      by reflexivity.
    rewrite !EC.
    assert (E2 : Vector3.lengthSq
                   (Vector3.mk (Fin x1) (Fin (0 * a - 0 * c)) (Fin x3))
                 = Fin T) by reflexivity.
    rewrite E2, (jeq_Fin_0 T) by lra. cbv beta iota zeta.
    rewrite (normalize_Fin x1 (0 * a - 0 * c) x3) by (fold T; lra).
    fold T H v.
    reflexivity. }
  split.
  { apply (lookAt_basis_rotation dx dy dz L u H v a b c x1 x3);
      try reflexivity; assumption. }
  split; [ring|].
  fold dx dy dz S L. unfold a, b, c, u.
  split; [field; lra|]. split; field; lra.
Qed.

(** ** [lookAt] below the untransformed scene *)

Lemma sqrt_unit (e : R) : e = 1 -> sqrt e = 1.
Proof. intros ->. apply sqrt_1. Qed.

Lemma extractRotation_identity :
  Matrix4.extractRotation Matrix4.identity = Matrix4.identity.
Proof.
  unfold Matrix4.extractRotation, Matrix4.identity, Vector3.length,
    Vector3.lengthSq.
  cbn [Matrix4.column Matrix4.te0 Matrix4.te1 Matrix4.te2 Matrix4.te4
       Matrix4.te5 Matrix4.te6 Matrix4.te8 Matrix4.te9 Matrix4.te10
       Vector3.x Vector3.y Vector3.z jmul jadd].
  rewrite !Math_sqrt_Fin by lra.
  rewrite (sqrt_unit (1 * 1 + 0 * 0 + 0 * 0)) by lra.
  rewrite (sqrt_unit (0 * 0 + 1 * 1 + 0 * 0)) by lra.
  rewrite (sqrt_unit (0 * 0 + 0 * 0 + 1 * 1)) by lra.
  rewrite jdiv_Fin by lra.
  apply Matrix4_ext; simpl; f_equal; lra.
Qed.

Lemma setFromRotationMatrix_identity :
  Quaternion_setFromRotationMatrix Matrix4.identity = Quaternion.new.
Proof.
  unfold Quaternion_setFromRotationMatrix, Matrix4.identity.
  cbn [Matrix4.te0 Matrix4.te1 Matrix4.te2 Matrix4.te4 Matrix4.te5
       Matrix4.te6 Matrix4.te8 Matrix4.te9 Matrix4.te10 jadd jsub jmul].
  rewrite jgt_Fin. destruct (Rlt_dec 0 (1 + 1 + 1)); [|lra].
  rewrite Math_sqrt_Fin by lra.
  assert (E : sqrt (1 + 1 + 1 + 1) = 2).
  { replace (1 + 1 + 1 + 1) with (2 * 2) by lra. apply sqrt_square. lra. }
  rewrite E. rewrite !jdiv_Fin by lra. cbn [jmul].
  unfold Quaternion.new. f_equal; f_equal; lra.
Qed.

Lemma premultiply_by_identity (x y z w : R) :
  Quaternion.premultiply (Quaternion.mk (Fin x) (Fin y) (Fin z) (Fin w))
                         (Quaternion.invert Quaternion.new)
  = Quaternion.mk (Fin x) (Fin y) (Fin z) (Fin w).
Proof.
  unfold Quaternion.premultiply, Quaternion.multiplyQuaternions,
    Quaternion.invert, Quaternion.new.
  simpl. f_equal; f_equal; ring.
Qed.

Lemma getWorldPosition_below_scene (o : Object3D.t) (a b c : R) :
  Object3D.position o = Vector3.mk (Fin a) (Fin b) (Fin c) ->
  Object3D.getWorldPosition [scene] o = Vector3.mk (Fin a) (Fin b) (Fin c).
Proof.
  intros Hpos. rewrite getWorldPosition_below. cbv zeta.
  cbn [Object3D.matrixWorld]. rewrite scene_matrix, Hpos.
  unfold Matrix4.identity. simpl. f_equal; f_equal; ring.
Qed.

(** A node below the scene that looks at a point not straight above or
    below it gets the quaternion of the [lookAt] basis. *)
Lemma lookAt_below_scene (o : Object3D.t) (px py pz cx cy cz : R) :
  Object3D.position o = Vector3.mk (Fin px) (Fin py) (Fin pz) ->
  Object3D.up o = Vector3.mk (Fin 0) (Fin 1) (Fin 0) ->
  (cx - px) * (cx - px) + (cz - pz) * (cz - pz) <> 0 ->
  exists x y z w m11 m21 m31 m12 m22 m32 m13 m23 m33,
    Object3D.quaternion
      (Object3D.lookAt [scene] false
         (Vector3.mk (Fin cx) (Fin cy) (Fin cz)) o)
    = Quaternion.mk (Fin x) (Fin y) (Fin z) (Fin w) /\
    quaternionGives x y z w m11 m21 m31 m12 m22 m32 m13 m23 m33 /\
    m21 = 0 /\
    let L := sqrt ((cx - px) * (cx - px) + (cy - py) * (cy - py)
                   + (cz - pz) * (cz - pz)) in
    m13 = (cx - px) / L /\ m23 = (cy - py) / L /\ m33 = (cz - pz) / L.
Proof.
  intros Hpos Hup Hd.
  destruct (Matrix4_lookAt_basis cx cy cz px py pz Hd)
    as (m11 & m21 & m31 & m12 & m22 & m32 & m13 & m23 & m33
        & HM & Hrot & H21 & Hdir).
  destruct (setFromRotationMatrix_rotation
              (Matrix4.mk (Fin m11) (Fin m21) (Fin m31) (Fin 0)
                          (Fin m12) (Fin m22) (Fin m32) (Fin 0)
                          (Fin m13) (Fin m23) (Fin m33) (Fin 0)
                          (Fin 0) (Fin 0) (Fin 0) (Fin 1))
              m11 m21 m31 m12 m22 m32 m13 m23 m33
              eq_refl eq_refl eq_refl Hrot)
    as (x & y & z & w & Hq & Hg).
  exists x, y, z, w, m11, m21, m31, m12, m22, m32, m13, m23, m33.
  split; [|split; [exact Hg | split; [exact H21 | exact Hdir]]].
  unfold Object3D.lookAt.
  rewrite (getWorldPosition_below_scene o px py pz Hpos), Hup.
  cbn [Object3D.quaternion Object3D.set_quaternion Object3D.matrixWorld].
  rewrite HM, Hq, scene_matrix, extractRotation_identity,
    setFromRotationMatrix_identity.
  apply premultiply_by_identity.
Qed.

Lemma compose_columns (p : Vector3.t)
    (x y z w m11 m21 m31 m12 m22 m32 m13 m23 m33 : R) :
  quaternionGives x y z w m11 m21 m31 m12 m22 m32 m13 m23 m33 ->
  let m := Matrix4.compose p
             (Quaternion.mk (Fin x) (Fin y) (Fin z) (Fin w))
             (Vector3.mk (Fin 1) (Fin 1) (Fin 1)) in
  Matrix4.column m 0 = Vector3.mk (Fin m11) (Fin m21) (Fin m31) /\
  Matrix4.column m 1 = Vector3.mk (Fin m12) (Fin m22) (Fin m32) /\
  Matrix4.column m 2 = Vector3.mk (Fin m13) (Fin m23) (Fin m33).
Proof.
  intros (H1 & H2 & H3 & H4 & H5 & H6 & H7 & H8 & H9) m.
  unfold m, Matrix4.compose. simpl.
  split; [|split]; f_equal; f_equal; lra.
Qed.

(** One run of Theo's branch: the record faces the camera. *)
Lemma billboard_faces_target :
  forall (camera : Camera.t) (obj : Entity) (t cx cy cz px py pz : R),
    isTheo obj = true ->
    pivot obj = None ->
    Object3D.scale (mesh obj) = Vector3.mk (Fin 1) (Fin 1) (Fin 1) ->
    Object3D.up (mesh obj) = Vector3.mk (Fin 0) (Fin 1) (Fin 0) ->
    Camera.position camera = Vector3.mk (Fin cx) (Fin cy) (Fin cz) ->
    Extended.theoPosition (Fin t) = Vector3.mk (Fin px) (Fin py) (Fin pz) ->
    (cx - px) * (cx - px) + (cz - pz) * (cz - pz) <> 0 ->
    let obj' := Extended.animateObject camera (Fin t) obj in
    let m := Object3D.matrixWorld (parents obj') (mesh obj') in
    let L := sqrt ((cx - px) * (cx - px) + (cy - py) * (cy - py)
                   + (cz - pz) * (cz - pz)) in
    Matrix4.position m = Vector3.mk (Fin px) (Fin py) (Fin pz) /\
    Matrix4.column m 2
    = Vector3.mk (Fin ((cx - px) / L)) (Fin ((cy - py) / L))
                 (Fin ((cz - pz) / L)) /\
    Vector3.y (Matrix4.column m 0) = Fin 0.
Proof.
  intros camera obj t cx cy cz px py pz Hth Hp Hsc Hup Hcam HP Hd obj' m L.
  set (o := Object3D.set_rotation_z
              (Euler.z (Object3D.rotation
                          (Object3D.set_position
                             (Extended.theoPosition (Fin t)) (mesh obj)))
               + Fin 0.005)%js
              (Object3D.set_position (Extended.theoPosition (Fin t))
                 (mesh obj))).
  assert (Hobj' : obj' = with_mesh obj
                           (Object3D.lookAt [scene] false
                              (Vector3.mk (Fin cx) (Fin cy) (Fin cz)) o)).
  { unfold obj', Extended.animateObject. rewrite Hth, Hcam.
    unfold parents. rewrite Hp. reflexivity. }
  destruct (lookAt_below_scene o px py pz cx cy cz)
    as (x & y & z & w & m11 & m21 & m31 & m12 & m22 & m32 & m13 & m23 & m33
        & Hq & Hg & H21 & H13 & H23 & H33);
    [exact HP | exact Hup | exact Hd |].
  assert (Hm : m = Matrix4.multiplyMatrices Matrix4.identity
                     (Matrix4.compose
                        (Vector3.mk (Fin px) (Fin py) (Fin pz))
                        (Quaternion.mk (Fin x) (Fin y) (Fin z) (Fin w))
                        (Vector3.mk (Fin 1) (Fin 1) (Fin 1)))).
  { unfold m. rewrite Hobj'. unfold parents. cbn [pivot with_mesh mesh].
    rewrite Hp. cbn [Object3D.matrixWorld]. rewrite scene_matrix.
    unfold Object3D.matrix. rewrite Hq, lookAt_position.
    change (Object3D.position o) with (Extended.theoPosition (Fin t)).
    rewrite HP.
    change (Object3D.scale (Object3D.lookAt [scene] false
                              (Vector3.mk (Fin cx) (Fin cy) (Fin cz)) o))
      with (Object3D.scale (mesh obj)).
    rewrite Hsc. reflexivity. }
  destruct (compose_columns (Vector3.mk (Fin px) (Fin py) (Fin pz))
              x y z w m11 m21 m31 m12 m22 m32 m13 m23 m33 Hg)
    as (C0 & C1 & C2).
  rewrite Hm.
  erewrite multiply_identity_Fin; [|unfold Matrix4.compose; reflexivity].
  split; [reflexivity|]. split.
  - rewrite C2, H13, H23, H33. reflexivity.
  - rewrite C0, H21. reflexivity.
Qed.


(** Theo's record keeps the shape the builder gave it: flagged, directly
    below the scene, of unit scale and with the default up vector. *)
Lemma theo_shape_kept (events : list EventLoop.Event) :
  forall (s : Extended.State) (i : nat) (obj : Entity),
    nth_error (Extended.celestialObjects s) i = Some obj ->
    isTheo obj = true ->
    pivot obj = None ->
    Object3D.scale (mesh obj) = Vector3.mk (Fin 1) (Fin 1) (Fin 1) ->
    Object3D.up (mesh obj) = Vector3.mk (Fin 0) (Fin 1) (Fin 0) ->
    exists obj',
      nth_error (Extended.celestialObjects (EventLoop.run events s)) i
      = Some obj' /\
      isTheo obj' = true /\ pivot obj' = None /\
      Object3D.scale (mesh obj') = Vector3.mk (Fin 1) (Fin 1) (Fin 1) /\
      Object3D.up (mesh obj') = Vector3.mk (Fin 0) (Fin 1) (Fin 0).
Proof.
  induction events as [|e events IH]; intros s i obj Hi Hth Hp Hsc Hup.
  - exists obj. split; [exact Hi|]. split; [exact Hth|]. split; [exact Hp|].
    split; assumption.
  - change (EventLoop.run (e :: events) s)
      with (EventLoop.run events (EventLoop.dispatch e s)).
    destruct e as [frame | window | j].
    + apply (IH _ i (Extended.animateObject (Extended.camera s)
                       (elapsedTime frame) obj)).
      * cbn [EventLoop.dispatch]. simpl. apply map_nth_error, Hi.
      * unfold Extended.animateObject. rewrite Hth. exact Hth.
      * unfold Extended.animateObject. rewrite Hth. exact Hp.
      * unfold Extended.animateObject. rewrite Hth. exact Hsc.
      * unfold Extended.animateObject. rewrite Hth. exact Hup.
    + apply (IH _ i obj); assumption.
    + apply (IH _ i obj); try assumption.
      cbn [EventLoop.dispatch]. rewrite clickLabel_objects. exact Hi.
Qed.

Lemma Extended_createBodies_theo (ds : list Descriptor) :
  nth_error (Extended.createBodies ds) (length ds) = Some Extended.theo.
Proof.
  unfold Extended.createBodies.
  rewrite nth_error_app2 by (rewrite length_map; lia).
  rewrite length_map, Nat.sub_diag. reflexivity.
Qed.

(** X10.  The billboard faces the camera.  Whatever frames, resizes and
    clicks came before, at the end of a frame with a finite clock reading
    Theo's mesh, unless the camera is straight above or below the place it
    is put at, has its local Z axis (the normal of its plane) pointing from
    that place to the camera, as a unit vector in the world, and its local
    X axis horizontal: the picture is upright, the per-frame increment of
    [rotation.z] leaves no roll. *)
Theorem theo_faces_the_camera :
  forall (ds : list Descriptor) (events : list EventLoop.Event)
         (frame : Frame) (s0 : Extended.State)
         (t cx cy cz px py pz : R),
    Extended.celestialObjects s0 = Extended.createBodies ds ->
    elapsedTime frame = Fin t ->
    Camera.position (Extended.camera (EventLoop.run events s0))
    = Vector3.mk (Fin cx) (Fin cy) (Fin cz) ->
    Extended.theoPosition (Fin t) = Vector3.mk (Fin px) (Fin py) (Fin pz) ->
    (cx - px) * (cx - px) + (cz - pz) * (cz - pz) <> 0 ->
    exists obj',
      nth_error
        (Extended.celestialObjects
           (Extended.animate frame (EventLoop.run events s0))) (length ds)
      = Some obj' /\
      let m := Object3D.matrixWorld (parents obj') (mesh obj') in
      let L := sqrt ((cx - px) * (cx - px) + (cy - py) * (cy - py)
                     + (cz - pz) * (cz - pz)) in
      Matrix4.position m = Vector3.mk (Fin px) (Fin py) (Fin pz) /\
      Matrix4.column m 2
      = Vector3.mk (Fin ((cx - px) / L)) (Fin ((cy - py) / L))
                   (Fin ((cz - pz) / L)) /\
      Vector3.y (Matrix4.column m 0) = Fin 0.
Proof.
  intros ds events frame s0 t cx cy cz px py pz Hs0 Ht Hcam HP Hd.
  destruct (theo_shape_kept events s0 (length ds) Extended.theo)
    as (obj & Hobj & Hth & Hp & Hsc & Hup);
    [rewrite Hs0; apply Extended_createBodies_theo
    | reflexivity | reflexivity | reflexivity | reflexivity |].
  exists (Extended.animateObject
            (Extended.camera (EventLoop.run events s0)) (Fin t) obj).
  split.
  - simpl. rewrite Ht. apply map_nth_error, Hobj.
  - exact (billboard_faces_target _ obj t cx cy cz px py pz
             Hth Hp Hsc Hup Hcam HP Hd).
Qed.

Lemma theo_faces_the_camera_witness :
  Extended.celestialObjects (Extended.startup window800x600 controlsAtRest)
  = Extended.createBodies solarSystemData /\
  (0 - cos (0 * 0.1) * 300) * (0 - cos (0 * 0.1) * 300)
  + (400 - sin (0 * 0.1) * 200 * cos (PI / 6))
    * (400 - sin (0 * 0.1) * 200 * cos (PI / 6)) <> 0 /\
  exists obj',
    nth_error
      (Extended.celestialObjects
         (Extended.animate {| delta := Fin 0; elapsedTime := Fin 0 |}
            (EventLoop.run []
               (Extended.startup window800x600 controlsAtRest)))) 9
    = Some obj' /\
    Vector3.y
      (Matrix4.column
         (Object3D.matrixWorld (parents obj') (mesh obj')) 0)
    = Fin 0.
Proof.
  assert (Hd : (0 - cos (0 * 0.1) * 300) * (0 - cos (0 * 0.1) * 300)
               + (400 - sin (0 * 0.1) * 200 * cos (PI / 6))
                 * (400 - sin (0 * 0.1) * 200 * cos (PI / 6)) <> 0).
  { replace (0 * 0.1) with 0 by lra. rewrite cos_0, sin_0.
    replace (400 - 0 * 200 * cos (PI / 6)) with 400 by lra. lra. }
  split; [reflexivity|]. split; [exact Hd|].
  destruct (theo_faces_the_camera solarSystemData []
              {| delta := Fin 0; elapsedTime := Fin 0 |}
              (Extended.startup window800x600 controlsAtRest)
              0 0 150 400 _ _ _ eq_refl eq_refl eq_refl
              (theoPosition_Fin 0) Hd) as (obj' & Hn & _ & _ & Hx).
  exists obj'. split; [exact Hn | exact Hx].
Defined.
